(** * Booking summary, checkout form and checkout-session route

    A shallow embedding of the booking wizard ([BookingSummary]), the
    two-step checkout form ([CheckoutForm]) and the checkout-session
    route handler ([POST]), with the properties their specification
    states about them.

    Conventions of the embedding.
    - A property that may be absent ([undefined]) is an [option].
    - An event handler is a function from the component state to the
      new state and the list of calls it makes to its collaborators.
    - A string is the sequence of the bytes of its UTF-8 encoding.
    - Numbers are embedded twice. The values the code computes, that
      is the distance, the price range and the total shown, are
      IEEE-754 doubles: the modules [Double], [Trip] and [Quote] follow
      the code operation by operation on the binary64 numbers of the
      kernel, each operation rounding as the machine does, with
      [Math.sin], [Math.cos] and [Math.atan2], which the language leaves
      to the engine, as a parameter. The modules [JS], [Geo] and
      [BookingSummary] read the same code over the real numbers with
      [NaN] added, where no operation rounds; they carry the state
      machine of the wizard and the properties that say which points
      and which services enter a result and how results compare, and
      that do not rest on the last digit of a result. *)

From Stdlib Require Import Reals Lra Lia ZArith List String Bool.
From Stdlib Require Floats Uint63.
Import ListNotations.

(** A decimal literal of a double stands for the double nearest to it,
    as it does in the source. *)
Set Warnings "-inexact-float".

Open Scope string_scope.
Open Scope list_scope.
Open Scope R_scope.

(** ** JavaScript numbers over the reals *)

Module JS.

Inductive number : Type :=
| NaN
| Num (r : R).

(** [ToNumber] of a property that may be missing: [undefined] becomes [NaN]. *)
Definition to_number (v : option R) : number :=
match v with
| Some r => Num r
| None => NaN
end.

(** Truthiness of a numeric property: [undefined], [NaN] and [0] are falsy. *)
Definition truthy (v : option R) : bool :=
match v with
| Some r => if Req_dec_T r 0 then false else true
| None => false
end.

Definition lift1 (f : R -> R) (x : number) : number :=
match x with
| Num a => Num (f a)
| NaN => NaN
end.

Definition lift2 (f : R -> R -> R) (x y : number) : number :=
match x, y with
| Num a, Num b => Num (f a b)
| _, _ => NaN
end.

Definition add := lift2 Rplus.
Definition sub := lift2 Rminus.
Definition mul := lift2 Rmult.
Definition div := lift2 Rdiv.

(** [Math.sqrt]: [NaN] below zero. *)
Definition Math_sqrt (x : number) : number :=
match x with
| Num a => if Rlt_dec a 0 then NaN else Num (sqrt a)
| NaN => NaN
end.

Definition Math_sin := lift1 sin.
Definition Math_cos := lift1 cos.

(** The angle of the point [(x, y)], in (-PI, PI]. *)
Definition atan2 (y x : R) : R :=
if Rlt_dec 0 x then atan (y / x)
else if Rlt_dec x 0 then
  (if Rle_dec 0 y then atan (y / x) + PI else atan (y / x) - PI)
else if Rlt_dec 0 y then PI / 2
else if Rlt_dec y 0 then - (PI / 2)
else 0.

Definition Math_atan2 := lift2 atan2.

Definition Math_PI : number := Num PI.

(** [Math.floor], [Math.ceil] and [Math.round] on a finite number.
    [Math.round] rounds a tie towards plus infinity. *)
Definition floor (x : R) : Z := Zfloor x.
Definition ceil (x : R) : Z := Zceil x.
Definition round (x : R) : Z := Zfloor (x + / 2).

Definition Math_round (x : number) : number :=
match x with
| Num a => Num (IZR (round a))
| NaN => NaN
end.

End JS.

Declare Scope js_scope.
Delimit Scope js_scope with js.
Bind Scope js_scope with JS.number.
Notation "x + y" := (JS.add x y) : js_scope.
Notation "x - y" := (JS.sub x y) : js_scope.
Notation "x * y" := (JS.mul x y) : js_scope.
Notation "x / y" := (JS.div x y) : js_scope.
Notation "# r" := (JS.Num r) (at level 5, r at level 0, format "# r") : js_scope.

(** ** Itinerary data *)

Record Location : Type := mkLocation {
  address : string;
  lat : option R;
  lng : option R
}.

(** [p?.lat] and [p.lng] on a point that may itself be absent. *)
Definition opt_lat (p : option Location) : option R :=
match p with
| Some l => lat l
| None => None
end.

Definition opt_lng (p : option Location) : option R :=
match p with
| Some l => lng l
| None => None
end.

(** ** Great-circle distance ([calculateTotalDistance]) over the reals *)

Module Geo.

Import JS.

(** Earth's radius in km. *)
Definition R_km : number := Num 6371.

(** The body of the loop once both latitudes passed the guard: the
    haversine length of the segment from [point1] to [point2]. *)
Definition segment (point1 point2 : option Location) : number :=
let lat1 := to_number (opt_lat point1) in
let lat2 := to_number (opt_lat point2) in
let lng1 := to_number (opt_lng point1) in
let lng2 := to_number (opt_lng point2) in
let dLat := ((lat2 - lat1) * Math_PI / #180)%js in
let dLon := ((lng2 - lng1) * Math_PI / #180)%js in
let a :=
  (Math_sin (dLat / #2) * Math_sin (dLat / #2) +
   Math_cos (lat1 * Math_PI / #180) * Math_cos (lat2 * Math_PI / #180) *
   Math_sin (dLon / #2) * Math_sin (dLon / #2))%js in
let c := (#2 * Math_atan2 (Math_sqrt a) (Math_sqrt (#1 - a)))%js in
(R_km * c)%js.

(** One iteration of the loop at index [i]. *)
Definition loop_body (points : list (option Location))
                     (totalDistance : number) (i : nat) : number :=
let point1 := nth i points None in
let point2 := nth (S i) points None in
if negb (truthy (opt_lat point1)) || negb (truthy (opt_lat point2))
then totalDistance
else (totalDistance + segment point1 point2)%js.

Definition calculateTotalDistance
  (origin : option Location) (stops : list (option Location))
  (destination : option Location) (isReturn : bool) : number :=
if negb (truthy (opt_lat origin)) || negb (truthy (opt_lat destination))
then Num 0
else
  let points := origin :: stops ++ [destination] in
  let totalDistance :=
    fold_left (loop_body points) (seq 0 (List.length points - 1)) (Num 0) in
  Math_round (if isReturn then (totalDistance * #2)%js else totalDistance).

End Geo.

(** ** The booking wizard ([BookingSummary]) *)

(** A string is truthy when it is not empty. *)
Definition nonempty (s : string) : bool := negb (String.eqb s "").

Module BookingSummary.

Record Currency : Type := mkCurrency {
  code : string;
  symbol : string;
  rate : R
}.

Definition EUR : Currency := mkCurrency "EUR" "€" 1.
Definition USD : Currency := mkCurrency "USD" "$" 1.08.
Definition GBP : Currency := mkCurrency "GBP" "£" 0.85.
Definition CHF : Currency := mkCurrency "CHF" "CHF" 0.95.

Definition currencies : list Currency := [EUR; USD; GBP; CHF].

(** Service prices *)
Module SERVICE_PRICES.
Definition airportTransfer : R := 250.
Definition catering : R := 350.
Definition concierge : R := 200.
Definition hotelBooking : R := 150.
End SERVICE_PRICES.

Record Services : Type := mkServices {
  airportTransfer : bool;
  catering : bool;
  concierge : bool;
  hotelBooking : bool
}.

Inductive ServiceName : Type :=
| AirportTransfer | Catering | Concierge | HotelBooking.

Record ContactInfo : Type := mkContactInfo {
  name : string;
  email : string;
  phone : string;
  specialRequests : string
}.

Inductive ContactField : Type :=
| FName | FEmail | FPhone | FSpecialRequests.

(** The properties the wizard reads. [basePrice] is the value of
    [calculateTotalPrice(totalDistance, speed, pricePerHour, requiredStops)],
    a function the component imports from the jet data; the amount is
    taken as given. *)
Record Props : Type := mkProps {
  origin : option Location;
  destination : option Location;
  stops : list (option Location);
  isReturn : bool;
  basePrice : R
}.

Record State : Type := mkState {
  showCheckout : bool;
  selectedCurrency : Currency;
  showCurrencyDropdown : bool;
  currentStep : Z;
  totalSteps : Z;
  selectedServices : Services;
  contactInfo : ContactInfo
}.

(** Calls to the parent. *)
Inductive Call : Type :=
| onBack.

(** [Intl.NumberFormat] with no fraction digit: the amount is rounded to
    an integer, a tie away from zero, and rendered with the currency. *)
Definition round_half_expand (x : R) : Z :=
if Rle_dec 0 x then Zfloor (x + / 2) else Zceil (x - / 2).

Record Formatted : Type := mkFormatted {
  fmt_currency : string;
  fmt_units : Z
}.

Definition formatPrice (price : R) (currency : Currency) : Formatted :=
let convertedPrice := price * rate currency in
mkFormatted (code currency) (round_half_expand convertedPrice).

Definition totalDistance (p : Props) : JS.number :=
Geo.calculateTotalDistance (origin p) (stops p) (destination p) (isReturn p).

(** Calculate additional services cost *)
Definition getAdditionalServicesCost (selectedServices : Services) : R :=
let total := 0 in
let total :=
  if airportTransfer selectedServices
  then total + SERVICE_PRICES.airportTransfer else total in
let total :=
  if catering selectedServices
  then total + SERVICE_PRICES.catering else total in
let total :=
  if concierge selectedServices
  then total + SERVICE_PRICES.concierge else total in
let total :=
  if hotelBooking selectedServices
  then total + SERVICE_PRICES.hotelBooking else total in
total.

Definition additionalServicesCost (st : State) : R :=
getAdditionalServicesCost (selectedServices st).

Definition totalPrice (p : Props) (st : State) : R :=
basePrice p + additionalServicesCost st.

(** Calculate price range for display *)
Definition minPrice (p : Props) : Z := JS.floor (basePrice p * 0.9).
Definition maxPrice (p : Props) : Z := JS.ceil (basePrice p * 1.1).

(** State as [useState] initialises it. *)
Definition initial : State :=
mkState false (nth 0 currencies EUR) false 1 3
  (mkServices false false false false)
  (mkContactInfo "" "" "" "").

Definition setCurrentStep (n : Z) (st : State) : State :=
mkState (showCheckout st) (selectedCurrency st) (showCurrencyDropdown st)
  n (totalSteps st) (selectedServices st) (contactInfo st).

Definition setTotalSteps (n : Z) (st : State) : State :=
mkState (showCheckout st) (selectedCurrency st) (showCurrencyDropdown st)
  (currentStep st) n (selectedServices st) (contactInfo st).

Definition setShowCheckout (b : bool) (st : State) : State :=
mkState b (selectedCurrency st) (showCurrencyDropdown st)
  (currentStep st) (totalSteps st) (selectedServices st) (contactInfo st).

Definition setSelectedCurrency (c : Currency) (st : State) : State :=
mkState (showCheckout st) c (showCurrencyDropdown st)
  (currentStep st) (totalSteps st) (selectedServices st) (contactInfo st).

Definition setShowCurrencyDropdown (b : bool) (st : State) : State :=
mkState (showCheckout st) (selectedCurrency st) b
  (currentStep st) (totalSteps st) (selectedServices st) (contactInfo st).

Definition setSelectedServices (s : Services) (st : State) : State :=
mkState (showCheckout st) (selectedCurrency st) (showCurrencyDropdown st)
  (currentStep st) (totalSteps st) s (contactInfo st).

Definition setContactInfo (c : ContactInfo) (st : State) : State :=
mkState (showCheckout st) (selectedCurrency st) (showCurrencyDropdown st)
  (currentStep st) (totalSteps st) (selectedServices st) c.

(** Set total steps based on whether there are stops *)
Definition totalSteps_effect (p : Props) (st : State) : State :=
setTotalSteps (if (0 <? List.length (stops p))%nat then 4 else 3)%Z st.

(** The state after the first render and its effects. *)
Definition mount (p : Props) : State := totalSteps_effect p initial.

Definition handleRequestQuote (st : State) : State * list Call :=
(setShowCheckout true st, []).

Definition nextStep (st : State) : State * list Call :=
if (currentStep st <? totalSteps st)%Z
then (setCurrentStep (currentStep st + 1)%Z st, [])
else (st, []).

Definition prevStep (st : State) : State * list Call :=
if (currentStep st >? 1)%Z
then (setCurrentStep (currentStep st - 1)%Z st, [])
else (st, [onBack]).

Definition handleServiceToggle (service : ServiceName) (st : State)
  : State * list Call :=
let prev := selectedServices st in
let next :=
  match service with
  | AirportTransfer =>
      mkServices (negb (airportTransfer prev)) (catering prev)
        (concierge prev) (hotelBooking prev)
  | Catering =>
      mkServices (airportTransfer prev) (negb (catering prev))
        (concierge prev) (hotelBooking prev)
  | Concierge =>
      mkServices (airportTransfer prev) (catering prev)
        (negb (concierge prev)) (hotelBooking prev)
  | HotelBooking =>
      mkServices (airportTransfer prev) (catering prev)
        (concierge prev) (negb (hotelBooking prev))
  end in
(setSelectedServices next st, []).

Definition handleContactInfoChange (field : ContactField) (value : string)
  (st : State) : State * list Call :=
let prev := contactInfo st in
let next :=
  match field with
  | FName => mkContactInfo value (email prev) (phone prev) (specialRequests prev)
  | FEmail => mkContactInfo (name prev) value (phone prev) (specialRequests prev)
  | FPhone => mkContactInfo (name prev) (email prev) value (specialRequests prev)
  | FSpecialRequests => mkContactInfo (name prev) (email prev) (phone prev) value
  end in
(setContactInfo next st, []).

Definition isFormValid (st : State) : bool :=
if (currentStep st =? 3)%Z
then nonempty (name (contactInfo st)) && nonempty (email (contactInfo st))
     && nonempty (phone (contactInfo st))
else true.

(** What the user can do with the wizard. [Next] and [Back] run the
    handlers themselves; [ClickNext] is the button, which is rendered
    below the last step only and disabled while the form is invalid. *)
Inductive Event : Type :=
| Next
| Back
| ClickNext
| RequestQuote
| ToggleService (service : ServiceName)
| ContactChange (field : ContactField) (value : string)
| SelectCurrency (c : Currency).

Definition handle (st : State) (ev : Event) : State * list Call :=
match ev with
| Next => nextStep st
| Back => prevStep st
| ClickNext =>
    if (currentStep st <? totalSteps st)%Z && isFormValid st
    then nextStep st else (st, [])
| RequestQuote => handleRequestQuote st
| ToggleService s => handleServiceToggle s st
| ContactChange f v => handleContactInfoChange f v st
| SelectCurrency c =>
    (setShowCurrencyDropdown false (setSelectedCurrency c st), [])
end.

(** States the wizard can be in for the properties [p]. *)
Inductive reachable (p : Props) : State -> Prop :=
| reachable_mount : reachable p (mount p)
| reachable_handle st ev :
    reachable p st -> reachable p (fst (handle st ev)).

(** The number of steps: four with stops, three without. *)
Definition booking_steps (p : Props) : Z :=
if (0 <? List.length (stops p))%nat then 4%Z else 3%Z.

End BookingSummary.

(** ** The checkout form ([CheckoutForm]) *)

Module CheckoutForm.

Record FormData : Type := mkFormData {
  name : string;
  email : string;
  phone : string;
  specialRequests : string;
  additionalServices : BookingSummary.Services
}.

Inductive Field : Type :=
| FName | FEmail | FPhone | FSpecialRequests.

(** The optional [userInfo] property; its last two fields are optional. *)
Record UserInfo : Type := mkUserInfo {
  ui_name : string;
  ui_email : string;
  ui_phone : string;
  ui_specialRequests : option string;
  ui_additionalServices : option BookingSummary.Services
}.

(** [offerType] is compared as a string, so any kind can be passed. *)
Record Props : Type := mkProps {
  offerId : string;
  offerType : string;
  title : string;
  price : R;
  currency : string;
  has_onSuccess : bool;
  userInfo : option UserInfo;
  user_name : option string;
  user_email : option string
}.

(** Calls to the parent and to the payment library. *)
Inductive Call : Type :=
| onClose
| onSuccess
| createCheckoutSession (offerId offerType : string) (price : R)
    (currency title : string) (userInfo : FormData)
| sendPaymentRequest (offerId offerType contactEmail : string)
    (formData : FormData)
| console_error.

(** The call on which [handlePayment] is suspended. One call is
    tracked: the rendered form cannot submit again while [loading]. *)
Inductive Awaited : Type :=
| AwaitCheckout
| AwaitRequest.

(** How an awaited call settles: it rejects (with the message of the
    error when it is an [Error]), or resolves to [{ error }] or to
    [{ success, error }]. *)
Inductive Settled : Type :=
| Rejected (message : option string)
| CheckoutResult (error : option string)
| RequestResult (success : bool) (error : option string).

Record State : Type := mkState {
  loading : bool;
  error : option string;
  success : bool;
  currentStep : Z;
  formData : FormData;
  pending : option Awaited
}.

Definition or_else (v : option string) (d : string) : string :=
match v with
| Some s => if nonempty s then s else d
| None => d
end.

Definition initial (p : Props) : State :=
let ui := userInfo p in
mkState false None false 1
  (mkFormData
     (or_else (option_map ui_name ui) (or_else (user_name p) ""))
     (or_else (option_map ui_email ui) (or_else (user_email p) ""))
     (or_else (option_map ui_phone ui) "")
     (or_else (match ui with
               | Some u => ui_specialRequests u
               | None => None
               end) "")
     (match ui with
      | Some (mkUserInfo _ _ _ _ (Some services)) => services
      | _ => BookingSummary.mkServices false false false false
      end))
  None.

Definition setLoading (b : bool) (st : State) : State :=
mkState b (error st) (success st) (currentStep st) (formData st) (pending st).

Definition setError (e : option string) (st : State) : State :=
mkState (loading st) e (success st) (currentStep st) (formData st) (pending st).

Definition setSuccess (b : bool) (st : State) : State :=
mkState (loading st) (error st) b (currentStep st) (formData st) (pending st).

Definition setCurrentStep (n : Z) (st : State) : State :=
mkState (loading st) (error st) (success st) n (formData st) (pending st).

Definition setFormData (f : FormData) (st : State) : State :=
mkState (loading st) (error st) (success st) (currentStep st) f (pending st).

Definition setPending (a : option Awaited) (st : State) : State :=
mkState (loading st) (error st) (success st) (currentStep st) (formData st) a.

(** The control that changed: a text field with its new value, or a
    checkbox named after a service with its new state. *)
Inductive Target : Type :=
| TextField (field : Field) (value : string)
| Checkbox (service : BookingSummary.ServiceName) (checked : bool).

Definition handleInputChange (target : Target) (st : State)
  : State * list Call :=
let prev := formData st in
let next :=
  match target with
  | Checkbox service checked =>
      let services := additionalServices prev in
      mkFormData (name prev) (email prev) (phone prev) (specialRequests prev)
        (match service with
         | BookingSummary.AirportTransfer =>
             BookingSummary.mkServices checked
               (BookingSummary.catering services)
               (BookingSummary.concierge services)
               (BookingSummary.hotelBooking services)
         | BookingSummary.Catering =>
             BookingSummary.mkServices
               (BookingSummary.airportTransfer services) checked
               (BookingSummary.concierge services)
               (BookingSummary.hotelBooking services)
         | BookingSummary.Concierge =>
             BookingSummary.mkServices
               (BookingSummary.airportTransfer services)
               (BookingSummary.catering services) checked
               (BookingSummary.hotelBooking services)
         | BookingSummary.HotelBooking =>
             BookingSummary.mkServices
               (BookingSummary.airportTransfer services)
               (BookingSummary.catering services)
               (BookingSummary.concierge services) checked
         end)
  | TextField FName value =>
      mkFormData value (email prev) (phone prev) (specialRequests prev)
        (additionalServices prev)
  | TextField FEmail value =>
      mkFormData (name prev) value (phone prev) (specialRequests prev)
        (additionalServices prev)
  | TextField FPhone value =>
      mkFormData (name prev) (email prev) value (specialRequests prev)
        (additionalServices prev)
  | TextField FSpecialRequests value =>
      mkFormData (name prev) (email prev) (phone prev) value
        (additionalServices prev)
  end in
(setFormData next st, []).

Definition required_filled (f : FormData) : bool :=
nonempty (name f) && nonempty (email f) && nonempty (phone f).

(** [offerId.startsWith('custom-')] *)
Definition startsWith (s prefix : string) : bool := String.prefix prefix s.

(** [handlePayment] up to its [await]: the form is validated and one
    call is sent, on which the handler is suspended. *)
Definition handlePayment (p : Props) (st : State) : State * list Call :=
let st := setLoading true st in
let st := setError None st in
if negb (nonempty (name (formData st))) || negb (nonempty (email (formData st)))
   || negb (nonempty (phone (formData st)))
then
  (setLoading false (setError (Some "Please fill in all required fields") st),
   [])
else if String.eqb (offerType p) "fixed_offer"
        && negb (startsWith (offerId p) "custom-")
then
  (setPending (Some AwaitCheckout) st,
   [createCheckoutSession (offerId p) (offerType p) (price p) (currency p)
      (title p) (formData st)])
else if String.eqb (offerType p) "empty_leg"
then
  (setPending (Some AwaitCheckout) st,
   [createCheckoutSession (offerId p) (offerType p) (price p) (currency p)
      (title p) (formData st)])
else
  (setPending (Some AwaitRequest) st,
   [sendPaymentRequest (offerId p) (offerType p) (email (formData st))
      (formData st)]).

(** The [catch] and [finally] blocks of [handlePayment]. *)
Definition finally (st : State) : State :=
setPending None (setLoading false st).

Definition catch (message : option string) (st : State) : State * list Call :=
(finally (setError
            (Some (match message with
                   | Some m => m
                   | None => "Payment failed. Please try again."
                   end)) st),
 [console_error]).

Definition truthy_error (e : option string) : bool :=
match e with
| Some m => nonempty m
| None => false
end.

(** [handlePayment] from its [await] on, once the call has settled. *)
Definition handlePayment_resume (p : Props) (st : State) (r : Settled)
  : State * list Call :=
match pending st, r with
| None, _ => (st, [])
| Some _, Rejected message => catch message st
| Some AwaitCheckout, CheckoutResult checkoutError =>
    if truthy_error checkoutError then catch checkoutError st
    else (finally st, [])
| Some AwaitRequest, RequestResult requestSuccess requestError =>
    if truthy_error requestError then catch requestError st
    else if requestSuccess
    then (finally (setSuccess true st),
          if has_onSuccess p then [onSuccess] else [])
    else (finally st, [])
| Some AwaitCheckout, RequestResult _ _ => (st, [])
| Some AwaitRequest, CheckoutResult _ => (st, [])
end.

Definition nextStep (p : Props) (st : State) : State * list Call :=
if (currentStep st <? 2)%Z
then (setCurrentStep (currentStep st + 1)%Z st, [])
else handlePayment p st.

Definition prevStep (st : State) : State * list Call :=
if (currentStep st >? 1)%Z
then (setCurrentStep (currentStep st - 1)%Z st, [])
else (st, [onClose]).

Definition isFormValid (st : State) : bool :=
if (currentStep st =? 1)%Z
then nonempty (name (formData st)) && nonempty (email (formData st))
     && nonempty (phone (formData st))
else true.

(** The [disabled] attribute of the next button. *)
Definition next_disabled (st : State) : bool :=
loading st || negb (isFormValid st).

(** What the user and the payment library can do with the form.
    [Next] and [Back] run the handlers themselves; the [Click] events
    go through what is rendered: the success panel has a close button
    only, a disabled button does nothing, and the input fields exist on
    step 1 only. *)
Inductive Event : Type :=
| Next
| Back
| ClickNext
| ClickBack
| ClickClose
| Input (target : Target)
| Settle (r : Settled).

Definition handle (p : Props) (st : State) (ev : Event) : State * list Call :=
match ev with
| Next => nextStep p st
| Back => prevStep st
| ClickNext =>
    if success st then (st, [])
    else if next_disabled st then (st, [])
    else nextStep p st
| ClickBack => if success st then (st, []) else prevStep st
| ClickClose => if success st then (st, [onClose]) else (st, [])
| Input target =>
    if success st then (st, [])
    else if (currentStep st =? 1)%Z then handleInputChange target st
    else (st, [])
| Settle r => handlePayment_resume p st r
end.

(** Events that go through the rendered form. *)
Definition rendered (ev : Event) : bool :=
match ev with
| Next | Back => false
| _ => true
end.

Definition run (p : Props) (st : State) (evs : list Event) : State :=
fold_left (fun s ev => fst (handle p s ev)) evs st.

(** States reached by the handlers [nextStep] and [prevStep] and any
    other event, gated or not. *)
Inductive reachable (p : Props) : State -> Prop :=
| reachable_initial : reachable p (initial p)
| reachable_handle st ev :
    reachable p st -> reachable p (fst (handle p st ev)).

(** States reached through the rendered form only. *)
Inductive ui_reachable (p : Props) : State -> Prop :=
| ui_initial : ui_reachable p (initial p)
| ui_handle st ev :
    ui_reachable p st -> rendered ev = true ->
    ui_reachable p (fst (handle p st ev)).

End CheckoutForm.

(** ** The checkout-session route ([POST]) *)

Module Route.

(** A value of the parsed request body. Arrays and objects are not
    told apart: the handler only tests them for truthiness. *)
Inductive Json : Type :=
| JNull
| JBool (b : bool)
| JNumber (r : R)
| JString (s : string)
| JCompound.

(** Truthiness of a destructured field; [None] is a missing field. *)
Definition truthy (v : option Json) : bool :=
match v with
| None => false
| Some JNull => false
| Some (JBool b) => b
| Some (JNumber r) => if Req_dec_T r 0 then false else true
| Some (JString s) => nonempty s
| Some JCompound => true
end.

Record Body : Type := mkBody {
  tierId : option Json;
  tierType : option Json;
  price : option Json;
  currency : option Json;
  name : option Json;
  email : option Json;
  metadata : option Json
}.

Inductive Mode : Type :=
| payment
| subscription.

(** What the handler asks of the payment provider for a session:
    the mode, the lower-cased currency, the price whose hundredfold is
    the unit amount, whether the price recurs each year, the customer. *)
Record SessionParams : Type := mkSessionParams {
  mode : Mode;
  price_currency : string;
  price_times_100 : option Json;
  recurring_year : bool;
  customer : string
}.

Inductive StripeCall : Type :=
| customers_create (email name tier_id tier_type : option Json)
| checkout_sessions_create (params : SessionParams).

(** The payment provider: the identifier each call returns, or [None]
    when the call throws. *)
Record Stripe : Type := mkStripe {
  customer_id : option string;
  session_id : option string
}.

Inductive Response : Type :=
| json_error (error : string) (status : Z)
| json_session (sessionId : string).

Definition failed : Response := json_error "Failed to create subscription" 500.

(** [request] is the body as [request.json()] and the destructuring
    yield it, [None] when either throws (a body that is not JSON, or
    [null]). [toLowerCase] is the built-in [String.prototype.toLowerCase]
    of the engine, whose case mapping covers the whole of Unicode; the
    handler is given it. The result is the response and the calls made
    to the payment provider, in order. *)
Definition POST (toLowerCase : string -> string) (stripe : Stripe)
  (request : option Body) : Response * list StripeCall :=
match request with
| None => (failed, [])
| Some body =>
    if negb (truthy (tierId body)) || negb (truthy (price body))
       || negb (truthy (currency body)) || negb (truthy (name body))
       || negb (truthy (email body))
    then (json_error "Missing required parameters" 400, [])
    else
      let create_customer :=
        customers_create (email body) (name body) (tierId body)
          (tierType body) in
      match customer_id stripe with
      | None => (failed, [create_customer])
      | Some customer =>
          let isOneTime :=
            match tierId body with
            | Some (JString s) => String.eqb s "partner-lifetime"
            | _ => false
            end in
          match currency body with
          | Some (JString c) =>
              let params :=
                mkSessionParams (if isOneTime then payment else subscription)
                  (toLowerCase c) (price body) (negb isOneTime) customer in
              match session_id stripe with
              | None =>
                  (failed, [create_customer; checkout_sessions_create params])
              | Some id =>
                  (json_session id,
                   [create_customer; checkout_sessions_create params])
              end
          | _ => (failed, [create_customer])
          end
      end
end.

(** Whether a call creates a checkout session. *)
Definition creates_session (c : StripeCall) : bool :=
match c with
| checkout_sessions_create _ => true
| customers_create _ _ _ _ => false
end.

End Route.

(** ** The distance as the specification words it *)

Module GeoSpec.

Import JS.

(** A coordinate read as a real number; a missing one is never used. *)
Definition coord (v : option R) : R :=
match v with
| Some r => r
| None => 0
end.

(** The haversine great-circle distance in km on an Earth of radius
    6371 km, between two points given in degrees. *)
Definition haversine_km (lat1 lng1 lat2 lng2 : R) : R :=
let dLat := (lat2 - lat1) * PI / 180 in
let dLon := (lng2 - lng1) * PI / 180 in
let a :=
  sin (dLat / 2) * sin (dLat / 2) +
  cos (lat1 * PI / 180) * cos (lat2 * PI / 180) *
  sin (dLon / 2) * sin (dLon / 2) in
6371 * (2 * atan2 (sqrt a) (sqrt (1 - a))).

Definition between (p q : option Location) : R :=
haversine_km (coord (opt_lat p)) (coord (opt_lng p))
             (coord (opt_lat q)) (coord (opt_lng q)).

(** A point has its coordinates when neither is missing. *)
Definition has_coordinates (p : option Location) : bool :=
match opt_lat p, opt_lng p with
| Some _, Some _ => true
| _, _ => false
end.

(** The specification's segment: a pair with a missing coordinate at
    either end has length zero. *)
Definition spec_leg (p q : option Location) : R :=
if has_coordinates p && has_coordinates q then between p q else 0.

Fixpoint spec_path (points : list (option Location)) : R :=
match points with
| p :: (q :: _) as rest => spec_leg p q + spec_path rest
| _ => 0
end.

Definition spec_distance
  (origin : option Location) (stops : list (option Location))
  (destination : option Location) (isRoundTrip : bool) : number :=
let total := spec_path (origin :: stops ++ [destination]) in
Num (IZR (round (if isRoundTrip then 2 * total else total))).

(** The code's segment: a pair is skipped when the latitude of either
    end is missing or zero. *)
Definition usable (p : option Location) : bool := truthy (opt_lat p).

(** The sum the loop accumulates, with [NaN] kept. *)
Definition contribution (p q : option Location) : number :=
if usable p && usable q then Geo.segment p q else Num 0.

Fixpoint sum_legs (points : list (option Location)) : number :=
match points with
| p :: (q :: _) as rest => (contribution p q + sum_legs rest)%js
| _ => Num 0
end.

(** A latitude the guard rejects: missing, or zero. *)
Definition lat_zero_or_absent (p : option Location) : Prop :=
  opt_lat p = None \/ opt_lat p = Some 0.

End GeoSpec.

(** ** The price as the specification words it *)

Module PricingSpec.

Import BookingSummary.

Definition is_selected (s : Services) (n : ServiceName) : bool :=
match n with
| AirportTransfer => airportTransfer s
| Catering => catering s
| Concierge => concierge s
| HotelBooking => hotelBooking s
end.

Definition no_service : Services := mkServices false false false false.
Definition all_services : Services := mkServices true true true true.

End PricingSpec.

(** ** The checkout policy as the specification words it *)

Module CheckoutSpec.

(** Kind [fixed_offer] with an identifier that is not custom, and kind
    [empty_leg], start a hosted payment session. *)
Definition uses_hosted_session (kind identifier : string) : bool :=
(String.eqb kind "fixed_offer" && negb (String.prefix "custom-" identifier))
|| String.eqb kind "empty_leg".

End CheckoutSpec.

(** ** Sample inputs *)

Module Sample.

Definition place (la lo : R) : option Location :=
Some (mkLocation "" (Some la) (Some lo)).

Definition without_latitude : option Location :=
Some (mkLocation "" None (Some 0)).

(** A direct flight priced 1000 by the pricing table. *)
Definition flight_1000 : BookingSummary.Props :=
BookingSummary.mkProps (place 48.8566 2.3522) (place 51.5074 (-0.1278)) []
  false 1000.

(** The checkout form as the wizard opens it, contact details filled. *)
Definition custom_charter : CheckoutForm.Props :=
CheckoutForm.mkProps "custom-1700000000000" "fixed_offer" "Paris to London"
  1350 "EUR" true
  (Some (CheckoutForm.mkUserInfo "Ada" "ada@example.org" "+44 20 7946 0000"
           (Some "")
           (Some (BookingSummary.mkServices false true false false))))
  None None.

(** Continue, submit, and go back while the request is in flight. *)
Definition back_while_loading : list CheckoutForm.Event :=
[CheckoutForm.ClickNext; CheckoutForm.ClickNext; CheckoutForm.ClickBack].

(** A request for the lifetime tier that lacks the email, and a
    payment provider that would serve it. *)
Definition request_without_email : Route.Body :=
Route.mkBody (Some (Route.JString "partner-lifetime"))
  (Some (Route.JString "partner")) (Some (Route.JNumber 4900))
  (Some (Route.JString "EUR")) (Some (Route.JString "Ada")) None None.

Definition provider : Route.Stripe :=
Route.mkStripe (Some "cus_1") (Some "cs_1").

(** [toLowerCase] on the letters A to Z, for currency codes. *)
Definition lower_letter (c : Ascii.ascii) : Ascii.ascii :=
let n := Ascii.nat_of_ascii c in
if ((65 <=? n) && (n <=? 90))%nat then Ascii.ascii_of_nat (n + 32) else c.

Fixpoint lower_letters (s : string) : string :=
match s with
| EmptyString => EmptyString
| String c rest => String (lower_letter c) (lower_letters rest)
end.

(** A multi-leg flight. *)
Definition flight_with_stop : BookingSummary.Props :=
BookingSummary.mkProps (place 48.8566 2.3522) (place 40.6413 (-73.7781))
  [place 64.13 (-21.94)] false 50000.

(** The wizard after catering was ticked. *)
Definition with_catering : BookingSummary.State :=
fst (BookingSummary.handle (BookingSummary.mount flight_1000)
       (BookingSummary.ToggleService BookingSummary.Catering)).

End Sample.

(** ** Strings ([split], [replace], [trim]) *)

(** A string is the sequence of the bytes of its UTF-8 encoding, so a
    character above U+007F takes two bytes or more. The parentheses
    that [formatLocation] looks for are single bytes, and no byte of a
    longer encoding equals one. *)
Module Text.

Import Ascii.

(** The white space and line terminators that [trim] removes, by the
    length of their encoding. One byte: tab, line feed, vertical tab,
    form feed, carriage return and space. *)
Definition white1 (a : ascii) : bool :=
let x := nat_of_ascii a in
((9 <=? x) && (x <=? 13) || (x =? 32))%nat.

(** Two bytes: the no-break space U+00A0. *)
Definition white2 (a b : ascii) : bool :=
((nat_of_ascii a =? 194) && (nat_of_ascii b =? 160))%nat.

(** Three bytes: U+1680, U+2000 to U+200A, U+2028, U+2029, U+202F,
    U+205F, U+3000 and U+FEFF. *)
Definition white3 (a b c : ascii) : bool :=
let x := nat_of_ascii a in
let y := nat_of_ascii b in
let z := nat_of_ascii c in
((x =? 225) && (y =? 154) && (z =? 128)
 || (x =? 226) && (y =? 128)
    && ((128 <=? z) && (z <=? 138) || (z =? 168) || (z =? 169) || (z =? 175))
 || (x =? 226) && (y =? 129) && (z =? 159)
 || (x =? 227) && (y =? 128) && (z =? 128)
 || (x =? 239) && (y =? 187) && (z =? 191))%nat.

Fixpoint trimStart (s : string) : string :=
match s with
| String a r1 =>
    if white1 a then trimStart r1
    else
      match r1 with
      | String b r2 =>
          if white2 a b then trimStart r2
          else
            match r2 with
            | String c r3 => if white3 a b c then trimStart r3 else s
            | EmptyString => s
            end
      | EmptyString => s
      end
| EmptyString => s
end.

Definition is_empty (s : string) : bool :=
match s with
| EmptyString => true
| String _ _ => false
end.

(** Whether [s] is white space throughout. *)
Definition all_white (s : string) : bool := is_empty (trimStart s).

(** The bytes are kept up to the point from which on only white space
    follows. *)
Fixpoint trimEnd (s : string) : string :=
match s with
| String a rest =>
    if all_white s then EmptyString else String a (trimEnd rest)
| EmptyString => EmptyString
end.

Definition trim (s : string) : string := trimEnd (trimStart s).

(** What is left of [s] behind a white space it starts with. *)
Definition strip (s : string) : option string :=
match s with
| String a r1 =>
    if white1 a then Some r1
    else
      match r1 with
      | String b r2 =>
          if white2 a b then Some r2
          else
            match r2 with
            | String c r3 => if white3 a b c then Some r3 else None
            | EmptyString => None
            end
      | EmptyString => None
      end
| EmptyString => None
end.

(** [s.split(sep)] for a separator of one character: the pieces between
    the separators, at least one. *)
Fixpoint split (sep : Ascii.ascii) (s : string) : list string :=
match s with
| EmptyString => [EmptyString]
| String c rest =>
    if Ascii.eqb c sep then EmptyString :: split sep rest
    else
      match split sep rest with
      | part :: parts => String c part :: parts
      | [] => [String c EmptyString]
      end
end.

(** [s.replace(c, '')]: the first [c] is dropped. *)
Fixpoint remove_first (c : Ascii.ascii) (s : string) : string :=
match s with
| EmptyString => EmptyString
| String d rest =>
    if Ascii.eqb d c then rest else String d (remove_first c rest)
end.

(** Whether [c] occurs in [s]. *)
Fixpoint occurs (c : Ascii.ascii) (s : string) : bool :=
match s with
| EmptyString => false
| String d rest => Ascii.eqb d c || occurs c rest
end.

End Text.

(** ** What the booking wizard renders *)

Module BookingView.

Import Ascii BookingSummary.

Record CityCode : Type := mkCityCode {
  city : string;
  airport : string
}.

(** [formatLocation]; the field [airport] is the [code] of the source. *)
Definition formatLocation (location : option Location) : CityCode :=
match location with
| None => mkCityCode "" ""
| Some l =>
    if negb (nonempty (address l)) then mkCityCode "" ""
    else
      let parts := Text.split "("%char (address l) in
      mkCityCode (Text.trim (nth 0 parts ""))
        (match nth_error parts 1 with
         | Some part => Text.remove_first ")"%char part
         | None => ""
         end)
end.

(** Whether [location?.address] is falsy. *)
Definition opt_address_empty (location : option Location) : bool :=
match location with
| Some l => negb (nonempty (address l))
| None => true
end.

(** The properties the wizard gives the checkout form it opens. [now]
    is [Date.now()] in decimal digits; [user_name] and [user_email] are
    what the authentication context holds. *)
Definition checkoutProps (now : string) (user_name user_email : option string)
  (p : Props) (st : State) : CheckoutForm.Props :=
CheckoutForm.mkProps
  (String.append "custom-" now)
  "fixed_offer"
  (String.append (city (formatLocation (origin p)))
     (String.append " to " (city (formatLocation (destination p)))))
  (totalPrice p st)
  (code (selectedCurrency st))
  true
  (Some (CheckoutForm.mkUserInfo
           (name (contactInfo st)) (email (contactInfo st))
           (phone (contactInfo st))
           (Some (specialRequests (contactInfo st)))
           (Some (selectedServices st))))
  user_name user_email.

(** What the user can do with what is rendered. The arrow of the header
    is always there. While the checkout form is shown nothing else of
    the wizard is; the form reports back by [onClose] and [onSuccess].
    Otherwise the content of the current step is shown (the currency
    menu on step 1, the services on step 2, the contact fields on step
    3) above the buttons: previous, and next below the last step or
    request quote on it, both disabled while the form is invalid. *)
Inductive UiEvent : Type :=
| HeaderBack
| ClickPrevious
| ClickNextButton
| ClickRequestQuote
| ClickCurrencyMenu
| ChooseCurrency (index : nat)
| MouseDownOutsideMenu
| TickService (service : ServiceName)
| TypeContact (field : ContactField) (value : string)
| CheckoutClosed
| CheckoutSucceeded.

Definition ui_handle (st : State) (ev : UiEvent) : State * list Call :=
match ev with
| HeaderBack => prevStep st
| CheckoutClosed => if showCheckout st then (st, [onBack]) else (st, [])
| CheckoutSucceeded =>
    if showCheckout st then (setShowCheckout false st, []) else (st, [])
| _ =>
    if showCheckout st then (st, [])
    else
      match ev with
      | ClickPrevious => prevStep st
      | ClickNextButton =>
          if (currentStep st <? totalSteps st)%Z && isFormValid st
          then nextStep st else (st, [])
      | ClickRequestQuote =>
          if negb (currentStep st <? totalSteps st)%Z && isFormValid st
          then handleRequestQuote st else (st, [])
      | ClickCurrencyMenu =>
          if (currentStep st =? 1)%Z
          then (setShowCurrencyDropdown (negb (showCurrencyDropdown st)) st, [])
          else (st, [])
      | ChooseCurrency index =>
          if (currentStep st =? 1)%Z && showCurrencyDropdown st
          then
            match nth_error currencies index with
            | Some currency =>
                (setShowCurrencyDropdown false
                   (setSelectedCurrency currency st), [])
            | None => (st, [])
            end
          else (st, [])
      | MouseDownOutsideMenu =>
          if (currentStep st =? 1)%Z
          then (setShowCurrencyDropdown false st, [])
          else (st, [])
      | TickService service =>
          if (currentStep st =? 2)%Z then handleServiceToggle service st
          else (st, [])
      | TypeContact field value =>
          if (currentStep st =? 3)%Z
          then handleContactInfoChange field value st
          else (st, [])
      | _ => (st, [])
      end
end.

Inductive ui_reachable (p : Props) : State -> Prop :=
| ui_mount : ui_reachable p (mount p)
| ui_step st ev : ui_reachable p st -> ui_reachable p (fst (ui_handle st ev)).

Definition contact_filled (c : ContactInfo) : bool :=
nonempty (name c) && nonempty (email c) && nonempty (phone c).

(** The price of a service in the catalog of the source. *)
Definition service_price (service : ServiceName) : R :=
match service with
| AirportTransfer => SERVICE_PRICES.airportTransfer
| Catering => SERVICE_PRICES.catering
| Concierge => SERVICE_PRICES.concierge
| HotelBooking => SERVICE_PRICES.hotelBooking
end.

End BookingView.

(** ** Calls and answers of the checkout form *)

Module CheckoutCalls.

Import CheckoutForm.

Definition is_session_start (c : Call) : bool :=
match c with
| createCheckoutSession _ _ _ _ _ _ => true
| _ => false
end.

Definition is_quote_request (c : Call) : bool :=
match c with
| sendPaymentRequest _ _ _ _ => true
| _ => false
end.

(** The call a submission sends for the properties [p] and the data
    [f], as [handlePayment] chooses it. *)
Definition submission (p : Props) (f : FormData) : Call :=
if CheckoutSpec.uses_hosted_session (offerType p) (offerId p)
then createCheckoutSession (offerId p) (offerType p) (price p) (currency p)
       (title p) f
else sendPaymentRequest (offerId p) (offerType p) (email f) f.

(** An answer of the kind awaited. *)
Definition answers (a : Awaited) (r : Settled) : bool :=
match r, a with
| Rejected _, _ => true
| CheckoutResult _, AwaitCheckout => true
| RequestResult _ _, AwaitRequest => true
| _, _ => false
end.

(** An answer that makes [handlePayment] throw: a rejection, or a
    result with a truthy error. *)
Definition fails (r : Settled) : bool :=
match r with
| Rejected _ => true
| CheckoutResult e => truthy_error e
| RequestResult _ e => truthy_error e
end.

(** An answer after which the success panel is shown. *)
Definition succeeds (r : Settled) : bool :=
match r with
| RequestResult s e => s && negb (truthy_error e)
| _ => false
end.

(** The message [catch] shows for a failing answer. *)
Definition failure_message (r : Settled) : string :=
match r with
| Rejected (Some m) => m
| Rejected None => "Payment failed. Please try again."
| CheckoutResult (Some m) => m
| RequestResult _ (Some m) => m
| _ => "Payment failed. Please try again."
end.

(** The kind of call the policy makes [handlePayment] await. *)
Definition awaited_kind (p : Props) : Awaited :=
if CheckoutSpec.uses_hosted_session (offerType p) (offerId p)
then AwaitCheckout else AwaitRequest.

(** What holds of the rendered form: [loading] is on exactly while a
    call is awaited; the awaited call is of the kind the policy
    chooses, and while it is awaited neither an error nor the success
    panel is shown; the success panel is only reached by a quote
    request. *)
Definition form_invariant (p : Props) (st : State) : Prop :=
  loading st = match pending st with Some _ => true | None => false end
  /\ (forall a, pending st = Some a ->
      a = awaited_kind p /\ error st = None /\ success st = false)
  /\ (success st = true ->
      CheckoutSpec.uses_hosted_session (offerType p) (offerId p) = false).

End CheckoutCalls.

(** ** Falsy fields of a request *)

Module RouteFields.

Import Route.

(** The values [!] turns into [true]: a missing field, [null], [false],
    [0] and the empty string. *)
Definition falsy (v : option Json) : Prop :=
v = None \/ v = Some JNull \/ v = Some (JBool false)
\/ v = Some (JNumber 0) \/ v = Some (JString "").

Definition is_string (v : option Json) : bool :=
match v with
| Some (JString _) => true
| _ => false
end.

(** The guard of the handler passes. *)
Definition all_truthy (body : Body) : bool :=
truthy (tierId body) && truthy (price body) && truthy (currency body)
&& truthy (name body) && truthy (email body).

(** A request lacks a required field when its body is an object
    without one of the five fields, or is no object at all. *)
Definition lacks_required_field (request : option Body) : Prop :=
match request with
| Some body =>
    tierId body = None \/ price body = None \/ currency body = None
    \/ name body = None \/ email body = None
| None => True
end.

(** [tierId === 'partner-lifetime'] *)
Definition is_lifetime (v : option Json) : bool :=
match v with
| Some (JString s) => String.eqb s "partner-lifetime"
| _ => false
end.

End RouteFields.

(** ** The error boundary ([NotFoundErrorBoundary]) *)

Module NotFoundErrorBoundary.

(** An [Error] is kept as its message. *)
Record State : Type := mkState {
  hasError : bool;
  error : option string
}.

Definition initial : State := mkState false None.

Definition getDerivedStateFromError (error : string) : State :=
mkState true (Some error).

Inductive View : Type :=
| PageNotFound
| Children.

Definition render (st : State) : View :=
if hasError st then PageNotFound else Children.

(** The boundary after it caught the errors thrown below it, one after
    the other: the derived state replaces both fields. *)
Definition caught (st : State) (errors : list string) : State :=
fold_left (fun _ e => getDerivedStateFromError e) errors st.

End NotFoundErrorBoundary.

(** ** Sample sessions *)

Module Scenario.

Import BookingView.

Definition ui_run (st : BookingSummary.State) (evs : list UiEvent)
  : BookingSummary.State :=
fold_left (fun s ev => fst (ui_handle s ev)) evs st.

(** Through the three steps of a direct flight to the quote request. *)
Definition book_direct_flight : list UiEvent :=
[ClickNextButton; TickService BookingSummary.Catering; ClickNextButton;
 TypeContact BookingSummary.FName "Ada";
 TypeContact BookingSummary.FEmail "ada@example.org";
 TypeContact BookingSummary.FPhone "+44 20 7946 0000";
 ClickRequestQuote].

(** A checkout form nobody filled in. *)
Definition empty_form : CheckoutForm.Props :=
CheckoutForm.mkProps "offer-7" "empty_leg" "Nice to Geneva" 4200 "EUR" false
  None None None.

(** A request with every field and a free tier. *)
Definition free_tier : Route.Body :=
Route.mkBody (Some (Route.JString "partner-basic"))
  (Some (Route.JString "partner")) (Some (Route.JNumber 0))
  (Some (Route.JString "EUR")) (Some (Route.JString "Ada"))
  (Some (Route.JString "ada@example.org")) None.

(** A request for the lifetime tier with every field. *)
Definition lifetime_tier : Route.Body :=
Route.mkBody (Some (Route.JString "partner-lifetime"))
  (Some (Route.JString "partner")) (Some (Route.JNumber 4900))
  (Some (Route.JString "EUR")) (Some (Route.JString "Ada"))
  (Some (Route.JString "ada@example.org")) None.

(** The same with a number where the currency code belongs. *)
Definition currency_as_number : Route.Body :=
Route.mkBody (Some (Route.JString "partner-lifetime"))
  (Some (Route.JString "partner")) (Some (Route.JNumber 4900))
  (Some (Route.JNumber 978)) (Some (Route.JString "Ada"))
  (Some (Route.JString "ada@example.org")) None.

End Scenario.

(** * Prices and distances in double precision *)

(** ** Numbers as IEEE-754 doubles *)

Module Double.

Import PrimFloat FloatOps SpecFloat.
Local Open Scope float_scope.

(** [ToNumber] of a property that may be missing: [undefined] becomes [NaN]. *)
Definition to_number (v : option float) : float :=
match v with
| Some x => x
| None => nan
end.

(** Truthiness of a number: [0], [-0] and [NaN] are falsy. *)
Definition truthy_number (x : float) : bool := negb (is_zero x || is_nan x).

Definition truthy (v : option float) : bool :=
match v with
| Some x => truthy_number x
| None => false
end.

(** A number that is not below zero: positive, a zero of either sign,
    or [NaN]. *)
Definition not_negative (x : float) : Prop := (x <? 0) = false.

(** The sign of a double is not set where it counts: the double is
    not a negative number or minus infinity. *)
Definition sign_free (x : spec_float) : bool :=
match x with
| S754_infinity true | S754_finite true _ _ => false
| _ => true
end.

(** The integer of magnitude [n], below 2^53, with its sign; the sign
    is kept on a zero. *)
Definition of_integer (negative : bool) (n : Z) : float :=
if (n =? 0)%Z then (if negative then neg_zero else zero)
else if negative then - of_uint63 (Uint63Axioms.of_Z n)
else of_uint63 (Uint63Axioms.of_Z n).

(** [Math.floor], [Math.ceil] and [Math.round], from the sign, the
    mantissa and the exponent of the double: a finite double is
    [m * 2^e], negated when [s] is set. With an exponent that is not
    negative it is an integer already; infinities, zeros and [NaN] are
    returned as they are. *)
Definition Math_floor (x : float) : float :=
match Prim2SF x with
| S754_finite s m e =>
    if (0 <=? e)%Z then x
    else
      let d := (2 ^ (- e))%Z in
      if s then of_integer true ((Zpos m + d - 1) / d)%Z
      else of_integer false (Zpos m / d)%Z
| _ => x
end.

Definition Math_ceil (x : float) : float :=
match Prim2SF x with
| S754_finite s m e =>
    if (0 <=? e)%Z then x
    else
      let d := (2 ^ (- e))%Z in
      if s then of_integer true (Zpos m / d)%Z
      else of_integer false ((Zpos m + d - 1) / d)%Z
| _ => x
end.

(** [Math.round] rounds a tie towards plus infinity; from -0.5 to -0
    the result is -0. *)
Definition Math_round (x : float) : float :=
match Prim2SF x with
| S754_finite s m e =>
    if (0 <=? e)%Z then x
    else
      let d := (2 ^ (- e))%Z in
      if s then of_integer true ((2 * Zpos m + d - 1) / (2 * d))%Z
      else of_integer false ((2 * Zpos m + d) / (2 * d))%Z
| _ => x
end.

(** The real number a finite double stands for. *)
Definition to_R (x : float) : R :=
match Prim2SF x with
| S754_finite s m e =>
    ((if s then -1 else 1) * IZR (Zpos m) * powerRZ 2 e)%R
| _ => 0%R
end.

(** A number as [Intl.NumberFormat] writes it with no fraction digit:
    the sign and the integer nearest to the magnitude, a tie away from
    zero; infinity and [NaN] have their own signs. *)
Inductive Amount : Type :=
| Digits (negative : bool) (units : Z)
| Infinite (negative : bool)
| NotANumber.

Definition round_half_expand (x : float) : Amount :=
match Prim2SF x with
| S754_zero s => Digits s 0
| S754_finite s m e =>
    Digits s
      (if (0 <=? e)%Z then Zpos m * 2 ^ e
       else (2 * Zpos m + 2 ^ (- e)) / (2 * 2 ^ (- e)))%Z
| S754_infinity s => Infinite s
| S754_nan => NotANumber
end.

(** [Math.sin], [Math.cos] and [Math.atan2] are approximated by the
    engine, which the language leaves free in their last bits; the code
    is given them. *)
Record MathLib : Type := mkMathLib {
  Math_sin : float -> float;
  Math_cos : float -> float;
  Math_atan2 : float -> float -> float
}.

(** [Math.PI], the double nearest to pi, written 3.141592653589793. *)
Definition Math_PI : float := 0x1.921fb54442d18p+1.

Definition Math_sqrt (x : float) : float := sqrt x.

(** The built-ins return [NaN] for [NaN], as the language requires. *)
Definition keeps_NaN (M : MathLib) : Prop :=
  Math_sin M nan = nan /\ Math_cos M nan = nan
  /\ forall x, Math_atan2 M nan x = nan.

(** [Math.atan2 (y, x)] is not negative when [y] is not: when [y] is
    positive, [+0] or [NaN], and when [y] is [-0] with [x] positive.
    (For [-0] the angle has the sign of [y]; it is [-0] to the right of
    the origin.) *)
Definition atan2_keeps_sign (M : MathLib) : Prop :=
  forall y x,
    not_negative y -> (y = neg_zero -> (0 <? x) = true) ->
    not_negative (Math_atan2 M y x).

End Double.

(** ** Great-circle distance ([calculateTotalDistance]) on doubles *)

Module Trip.

Import PrimFloat Double.
Local Open Scope float_scope.

Record Location : Type := mkLocation {
  address : string;
  lat : option float;
  lng : option float
}.

(** [p?.lat] and [p.lng] on a point that may itself be absent. *)
Definition opt_lat (p : option Location) : option float :=
match p with
| Some l => lat l
| None => None
end.

Definition opt_lng (p : option Location) : option float :=
match p with
| Some l => lng l
| None => None
end.

(** Earth's radius in km. *)
Definition R_km : float := 6371.

(** The body of the loop once both latitudes passed the guard. *)
Definition segment (M : MathLib) (point1 point2 : option Location) : float :=
let lat1 := to_number (opt_lat point1) in
let lat2 := to_number (opt_lat point2) in
let lng1 := to_number (opt_lng point1) in
let lng2 := to_number (opt_lng point2) in
let dLat := (lat2 - lat1) * Math_PI / 180 in
let dLon := (lng2 - lng1) * Math_PI / 180 in
let a :=
  Math_sin M (dLat / 2) * Math_sin M (dLat / 2) +
  Math_cos M (lat1 * Math_PI / 180) * Math_cos M (lat2 * Math_PI / 180) *
  Math_sin M (dLon / 2) * Math_sin M (dLon / 2) in
let c := 2 * Math_atan2 M (Math_sqrt a) (Math_sqrt (1 - a)) in
R_km * c.

(** One iteration of the loop at index [i]. *)
Definition loop_body (M : MathLib) (points : list (option Location))
                     (totalDistance : float) (i : nat) : float :=
let point1 := nth i points None in
let point2 := nth (S i) points None in
if negb (truthy (opt_lat point1)) || negb (truthy (opt_lat point2))
then totalDistance
else totalDistance + segment M point1 point2.

Definition calculateTotalDistance (M : MathLib)
  (origin : option Location) (stops : list (option Location))
  (destination : option Location) (isReturn : bool) : float :=
if negb (truthy (opt_lat origin)) || negb (truthy (opt_lat destination))
then 0
else
  let points := origin :: stops ++ [destination] in
  let totalDistance :=
    fold_left (loop_body M points) (seq 0 (List.length points - 1)) 0 in
  Math_round (if isReturn then totalDistance * 2 else totalDistance).

(** The consecutive pairs of a list of points, in order. *)
Fixpoint consecutive (points : list (option Location))
  : list (option Location * option Location) :=
match points with
| p :: (q :: _) as rest => (p, q) :: consecutive rest
| _ => []
end.

(** The step of the loop on a pair: the pair is left out when the
    latitude is falsy at either end. *)
Definition loop_leg (M : MathLib) (sum : float)
  (pair : option Location * option Location) : float :=
if truthy (opt_lat (fst pair)) && truthy (opt_lat (snd pair))
then sum + segment M (fst pair) (snd pair)
else sum.

(** The sum the loop accumulates. *)
Definition loop_total (M : MathLib) (points : list (option Location)) : float :=
fold_left (loop_leg M) (consecutive points) 0.

(** The guard before the loop lets the itinerary pass. *)
Definition passes_guard (origin destination : option Location) : bool :=
truthy (opt_lat origin) && truthy (opt_lat destination).

(** A pair that passes the guard on the latitudes while one of its
    longitudes is missing. *)
Definition lacks_longitude (pair : option Location * option Location) : bool :=
truthy (opt_lat (fst pair)) && truthy (opt_lat (snd pair))
&& negb (match opt_lng (fst pair), opt_lng (snd pair) with
         | Some _, Some _ => true
         | _, _ => false
         end).

End Trip.

(** ** The distance as the specification words it, on doubles *)

Module TripSpec.

Import PrimFloat Double Trip.
Local Open Scope float_scope.

(** The haversine great-circle distance in km on an Earth of radius
    6371 km, between two points given in degrees. *)
Definition haversine_km (M : MathLib) (lat1 lng1 lat2 lng2 : float) : float :=
let dLat := (lat2 - lat1) * Math_PI / 180 in
let dLon := (lng2 - lng1) * Math_PI / 180 in
let a :=
  Math_sin M (dLat / 2) * Math_sin M (dLat / 2) +
  Math_cos M (lat1 * Math_PI / 180) * Math_cos M (lat2 * Math_PI / 180) *
  Math_sin M (dLon / 2) * Math_sin M (dLon / 2) in
6371 * (2 * Math_atan2 M (Math_sqrt a) (Math_sqrt (1 - a))).

(** A point has its coordinates when neither is missing. *)
Definition has_coordinates (p : option Location) : bool :=
match opt_lat p, opt_lng p with
| Some _, Some _ => true
| _, _ => false
end.

Definition between (M : MathLib) (p q : option Location) : float :=
haversine_km M (to_number (opt_lat p)) (to_number (opt_lng p))
               (to_number (opt_lat q)) (to_number (opt_lng q)).

(** A pair is added to the sum, or skipped when a coordinate is
    missing at either end. *)
Definition add_leg (M : MathLib) (sum : float)
  (pair : option Location * option Location) : float :=
if has_coordinates (fst pair) && has_coordinates (snd pair)
then sum + between M (fst pair) (snd pair)
else sum.

(** The sum over the pairs, from the first to the last. *)
Definition total (M : MathLib) (points : list (option Location)) : float :=
fold_left (add_leg M) (consecutive points) 0.

Definition spec_distance (M : MathLib)
  (origin : option Location) (stops : list (option Location))
  (destination : option Location) (isRoundTrip : bool) : float :=
let sum := total M (origin :: stops ++ [destination]) in
Math_round (if isRoundTrip then sum * 2 else sum).

(** Every point has both coordinates. *)
Definition all_valid (points : list (option Location)) : Prop :=
  forall p, In p points -> has_coordinates p = true.

(** No latitude is [0] or [NaN], and a point that has a latitude has a
    longitude. *)
Definition regular (points : list (option Location)) : Prop :=
  forall p, In p points ->
    (forall x, opt_lat p = Some x -> truthy_number x = true)
    /\ (opt_lat p <> None -> opt_lng p <> None).

End TripSpec.

(** ** Prices on doubles *)

Module Quote.

Import PrimFloat Double.
Local Open Scope float_scope.

Record Currency : Type := mkCurrency {
  code : string;
  symbol : string;
  rate : float
}.

Definition EUR : Currency := mkCurrency "EUR" "€" 1.
Definition USD : Currency := mkCurrency "USD" "$" 1.08.
Definition GBP : Currency := mkCurrency "GBP" "£" 0.85.
Definition CHF : Currency := mkCurrency "CHF" "CHF" 0.95.

Definition currencies : list Currency := [EUR; USD; GBP; CHF].

(** Service prices *)
Module SERVICE_PRICES.
Definition airportTransfer : float := 250.
Definition catering : float := 350.
Definition concierge : float := 200.
Definition hotelBooking : float := 150.
End SERVICE_PRICES.

(** What the prices are computed from: the base price the wizard is
    given, and of its state the services and the currency. *)
Record View : Type := mkView {
  basePrice : float;
  selectedServices : BookingSummary.Services;
  selectedCurrency : Currency
}.

Definition setSelectedServices (s : BookingSummary.Services) (v : View)
  : View :=
mkView (basePrice v) s (selectedCurrency v).

Definition setSelectedCurrency (c : Currency) (v : View) : View :=
mkView (basePrice v) (selectedServices v) c.

(** A price as it is written: the currency and the amount. *)
Record Formatted : Type := mkFormatted {
  fmt_currency : string;
  fmt_amount : Amount
}.

Definition formatPrice (price : float) (currency : Currency) : Formatted :=
let convertedPrice := price * rate currency in
mkFormatted (code currency) (round_half_expand convertedPrice).

(** Calculate additional services cost *)
Definition getAdditionalServicesCost
  (selectedServices : BookingSummary.Services) : float :=
let total := 0 in
let total :=
  if BookingSummary.airportTransfer selectedServices
  then total + SERVICE_PRICES.airportTransfer else total in
let total :=
  if BookingSummary.catering selectedServices
  then total + SERVICE_PRICES.catering else total in
let total :=
  if BookingSummary.concierge selectedServices
  then total + SERVICE_PRICES.concierge else total in
let total :=
  if BookingSummary.hotelBooking selectedServices
  then total + SERVICE_PRICES.hotelBooking else total in
total.

Definition additionalServicesCost (v : View) : float :=
getAdditionalServicesCost (selectedServices v).

Definition totalPrice (v : View) : float :=
basePrice v + additionalServicesCost v.

(** Calculate price range for display *)
Definition minPrice (v : View) : float := Math_floor (basePrice v * 0.9).
Definition maxPrice (v : View) : float := Math_ceil (basePrice v * 1.1).

Definition priceRange (v : View) : Formatted * Formatted :=
(formatPrice (minPrice v) (selectedCurrency v),
 formatPrice (maxPrice v) (selectedCurrency v)).

(** The total the wizard shows on its steps 2 to 4. *)
Definition displayedTotal (v : View) : Formatted :=
formatPrice (totalPrice v) (selectedCurrency v).

(** The price line of the checkout form the wizard opens: the code of
    the currency and the [price] it was given, which is [totalPrice],
    written by [toLocaleString]. *)
Definition checkoutPrice (v : View) : string * float :=
(code (selectedCurrency v), totalPrice v).

End Quote.

(** ** The price as the specification words it, on doubles *)

Module QuoteSpec.

Import PrimFloat Double Quote.
Local Open Scope float_scope.

(** The catalog of services with their prices in the base currency. *)
Definition catalog : list (BookingSummary.ServiceName * float) :=
[(BookingSummary.AirportTransfer, 250); (BookingSummary.Catering, 350);
 (BookingSummary.Concierge, 200); (BookingSummary.HotelBooking, 150)].

(** The sum of the prices of the selected services. *)
Definition service_sum (s : BookingSummary.Services) : float :=
fold_left (fun sum entry =>
             if PricingSpec.is_selected s (fst entry) then sum + snd entry
             else sum)
          catalog 0.

(** The total of the specification: base price plus service cost. *)
Definition spec_total (v : View) : float :=
basePrice v + service_sum (selectedServices v).

(** The range the specification states, from the total. *)
Definition spec_range (v : View) : Formatted * Formatted :=
(formatPrice (Math_floor (spec_total v * 0.9)) (selectedCurrency v),
 formatPrice (Math_ceil (spec_total v * 1.1)) (selectedCurrency v)).

End QuoteSpec.

(** ** The built-ins on small angles *)

(** A stand-in for the engine where a value is needed: the polynomials
    of the kernels of fdlibm, for angles of small magnitude; elsewhere
    it gives [NaN]. *)
Module SmallAngles.

Import PrimFloat Double.
Local Open Scope float_scope.

Definition kernel_sin (x : float) : float :=
let z := x * x in
let v := z * x in
let r :=
  8.33333333332248946124e-03
  + z * (-1.98412698298579493134e-04
         + z * (2.75573137070700676789e-06
                + z * (-2.50507602534068634195e-08
                       + z * 1.58969099521155010221e-10))) in
x + v * (-1.66666666666666324348e-01 + z * r).

Definition kernel_cos (x : float) : float :=
let z := x * x in
let r :=
  z * (4.16666666666666019037e-02
       + z * (-1.38888888888741095749e-03
              + z * (2.48015872894767294178e-05
                     + z * (-2.75573143513906633035e-07
                            + z * (2.08757232129817482790e-09
                                   + z * -1.13596475577881948265e-11))))) in
1 - (0.5 * z - z * r).

Definition kernel_atan (x : float) : float :=
let z := x * x in
let w := z * z in
let s1 :=
  z * (3.33333333333329318027e-01
       + w * (1.42857142725034663711e-01
              + w * (9.09088713343650656196e-02
                     + w * (6.66107313738753120669e-02
                            + w * (4.97687799461593236017e-02
                                   + w * 1.62858201153657823623e-02))))) in
let s2 :=
  w * (-1.99999999998764832476e-01
       + w * (-1.11111104054623557880e-01
              + w * (-7.69187620504482999495e-02
                     + w * (-5.83357013379057348645e-02
                            + w * -3.65315727442169155270e-02)))) in
x - x * (s1 + s2).

Definition sin (x : float) : float :=
if abs x <=? 0.7853981633974483 then kernel_sin x else nan.

Definition cos (x : float) : float :=
if abs x <? 0.3 then kernel_cos x else nan.

(** The angle of a point of the first quadrant below the slope 7/16;
    it is taken by its magnitude. *)
Definition atan2 (y x : float) : float :=
if (0 <=? y) && (0 <? x) && (y / x <? 0.4375)
then abs (kernel_atan (y / x)) else nan.

Definition engine : MathLib := mkMathLib sin cos atan2.

End SmallAngles.

(** ** Sample inputs on doubles *)

Module Sample64.

Import PrimFloat.
Local Open Scope float_scope.

Definition place (la lo : float) : option Trip.Location :=
Some (Trip.mkLocation "" (Some la) (Some lo)).

Definition without_latitude : option Trip.Location :=
Some (Trip.mkLocation "" None (Some 0)).

Definition without_longitude : option Trip.Location :=
Some (Trip.mkLocation "" (Some 1) None).

(** A base price of 1000 with no service, in EUR. *)
Definition flight_1000 : Quote.View :=
Quote.mkView 1000 (BookingSummary.mkServices false false false false)
  Quote.EUR.

(** The same after catering was ticked. *)
Definition with_catering : Quote.View :=
Quote.setSelectedServices (BookingSummary.mkServices false true false false)
  flight_1000.

(** A base price whose total in dollars lies half way between two
    integers. *)
Definition flight_in_dollars : Quote.View :=
Quote.mkView 926.3888888888888
  (BookingSummary.mkServices false false false false) Quote.USD.

(** A base price of 50000. *)
Definition flight_50000 : Quote.View :=
Quote.mkView 50000 (BookingSummary.mkServices false false false false)
  Quote.EUR.

End Sample64.

(** * Properties *)

(** ** Numbers over the reals *)

Section Numbers.

Import JS.

Lemma add_0_r (x : number) : (x + #0)%js = x.
Proof. destruct x; simpl; [reflexivity | f_equal; lra]. Qed.

Lemma add_0_l (x : number) : (#0 + x)%js = x.
Proof. destruct x; simpl; [reflexivity | f_equal; lra]. Qed.

Lemma add_assoc (x y z : number) : (x + (y + z))%js = (x + y + z)%js.
Proof. destruct x, y, z; simpl; try reflexivity; f_equal; lra. Qed.

Lemma round_eq (x : R) (z : Z) : IZR z - / 2 <= x < IZR z + / 2 -> round x = z.
Proof. intros H. unfold round. apply Zfloor_eq. lra. Qed.

End Numbers.

(** ** Haversine over the reals *)

Section Haversine.

Import JS GeoSpec.

Lemma cos_product (m h : R) :
  cos (m - h) * cos (m + h) = cos m * cos m - sin h * sin h.
Proof.
rewrite cos_minus, cos_plus.
pose proof (sin2_cos2 m) as Hm. pose proof (sin2_cos2 h) as Hh.
unfold Rsqr in Hm, Hh. nra.
Qed.

Lemma sq_sin_bound (x : R) : 0 <= sin x * sin x <= 1.
Proof.
pose proof (sin2_cos2 x) as H. unfold Rsqr in H.
pose proof (Rle_0_sqr (sin x)) as Hs. pose proof (Rle_0_sqr (cos x)) as Hc.
unfold Rsqr in Hs, Hc. lra.
Qed.

Lemma sq_cos_bound (x : R) : 0 <= cos x * cos x <= 1.
Proof.
pose proof (sin2_cos2 x) as H. unfold Rsqr in H.
pose proof (Rle_0_sqr (sin x)) as Hs. pose proof (Rle_0_sqr (cos x)) as Hc.
unfold Rsqr in Hs, Hc. lra.
Qed.

(** The haversine of the central angle lies in [0, 1] for all
    coordinates, so that neither square root is taken below zero. *)
Lemma hav_bounds (u1 u2 l : R) :
  0 <= sin ((u2 - u1) / 2) * sin ((u2 - u1) / 2)
       + cos u1 * cos u2 * sin l * sin l <= 1.
Proof.
pose proof (cos_product ((u1 + u2) / 2) ((u2 - u1) / 2)) as Hp.
replace ((u1 + u2) / 2 - (u2 - u1) / 2) with u1 in Hp by lra.
replace ((u1 + u2) / 2 + (u2 - u1) / 2) with u2 in Hp by lra.
rewrite Hp.
pose proof (sq_sin_bound ((u2 - u1) / 2)).
pose proof (sq_cos_bound ((u1 + u2) / 2)).
pose proof (sq_sin_bound l).
nra.
Qed.

(** With both latitudes and both longitudes present the loop's segment
    is the haversine distance, a finite number. *)
Lemma segment_haversine (p q : option Location) :
  has_coordinates p = true -> has_coordinates q = true ->
  Geo.segment p q = Num (between p q).
Proof.
unfold has_coordinates, Geo.segment, between, haversine_km.
destruct (opt_lat p) as [la1|]; [| discriminate].
destruct (opt_lng p) as [lo1|]; [| discriminate].
destruct (opt_lat q) as [la2|]; [| discriminate].
destruct (opt_lng q) as [lo2|]; [| discriminate].
intros _ _. simpl.
pose proof (hav_bounds (la1 * PI / 180) (la2 * PI / 180)
              ((lo2 - lo1) * PI / 180 / 2)) as Hb.
replace ((la2 * PI / 180 - la1 * PI / 180) / 2)
  with ((la2 - la1) * PI / 180 / 2) in Hb by lra.
rewrite Rmult_assoc in Hb.
match goal with
| |- context [Rlt_dec ?a 0] => destruct (Rlt_dec a 0) as [Hneg | _]
end.
{ exfalso. rewrite Rmult_assoc in Hneg. lra. }
match goal with
| |- context [Rlt_dec ?a 0] => destruct (Rlt_dec a 0) as [Hneg | _]
end.
{ exfalso. rewrite Rmult_assoc in Hneg. lra. }
reflexivity.
Qed.

End Haversine.

(** ** The loop of [calculateTotalDistance] over the reals *)

Section Loop.

Import JS GeoSpec.

Lemma sum_legs_cons (p q : option Location) (rest : list (option Location)) :
  sum_legs (p :: q :: rest) = (contribution p q + sum_legs (q :: rest))%js.
Proof. reflexivity. Qed.

Lemma loop_body_contribution (pre : list (option Location))
  (p q : option Location) (rest : list (option Location)) (acc : number) :
  Geo.loop_body (pre ++ p :: q :: rest) acc (List.length pre)
  = (acc + contribution p q)%js.
Proof.
unfold Geo.loop_body, contribution, usable.
replace (nth (S (List.length pre)) (pre ++ p :: q :: rest) None) with q.
2:{ replace (pre ++ p :: q :: rest) with ((pre ++ [p]) ++ q :: rest)
      by (rewrite <- app_assoc; reflexivity).
    replace (S (List.length pre)) with (List.length (pre ++ [p]))
      by (rewrite length_app; simpl; lia).
    rewrite nth_middle. reflexivity. }
rewrite nth_middle.
destruct (truthy (opt_lat p)), (truthy (opt_lat q)); simpl;
  try reflexivity; symmetry; apply add_0_r.
Qed.

Lemma loop_from (rest pre : list (option Location)) (acc : number) :
  fold_left (Geo.loop_body (pre ++ rest))
    (seq (List.length pre) (List.length rest - 1)) acc
  = (acc + sum_legs rest)%js.
Proof.
revert pre acc. induction rest as [| p rest IH]; intros pre acc.
- simpl. symmetry. apply add_0_r.
- destruct rest as [| q rest].
  + simpl. symmetry. apply add_0_r.
  + replace (List.length (p :: q :: rest) - 1)%nat
      with (S (List.length (q :: rest) - 1)) by (simpl; lia).
    rewrite <- cons_seq. cbn [fold_left].
    rewrite loop_body_contribution.
    specialize (IH (pre ++ [p]) (acc + contribution p q)%js).
    rewrite <- app_assoc in IH. cbn [app] in IH.
    replace (List.length (pre ++ [p])) with (S (List.length pre)) in IH
      by (rewrite length_app; simpl; lia).
    rewrite IH, sum_legs_cons. apply eq_sym, add_assoc.
Qed.

(** The loop adds up the contributions of the consecutive pairs. *)
Lemma loop_sum_legs (points : list (option Location)) :
  fold_left (Geo.loop_body points) (seq 0 (List.length points - 1)) (Num 0)
  = sum_legs points.
Proof.
pose proof (loop_from points [] (Num 0)) as H. cbn [app List.length] in H.
rewrite H. apply add_0_l.
Qed.

Lemma distance_sum_legs (origin : option Location)
  (stops : list (option Location)) (destination : option Location)
  (isReturn : bool) :
  Geo.calculateTotalDistance origin stops destination isReturn
  = if usable origin && usable destination
    then
      let total := sum_legs (origin :: stops ++ [destination]) in
      Math_round (if isReturn then (total * #2)%js else total)
    else Num 0.
Proof.
unfold Geo.calculateTotalDistance, usable.
destruct (truthy (opt_lat origin)), (truthy (opt_lat destination));
  simpl orb; simpl andb; cbv iota; try reflexivity.
cbv zeta. rewrite loop_sum_legs. reflexivity.
Qed.

End Loop.

(** ** Distances along a meridian *)

Section Meridian.

Import JS GeoSpec.

(** Two points of the same longitude, the second to the north by less
    than 180 degrees, are apart by the arc of their latitudes. *)
Lemma haversine_meridian (lat1 lat2 lng0 : R) :
  0 <= lat2 - lat1 < 180 ->
  haversine_km lat1 lng0 lat2 lng0 = 6371 * ((lat2 - lat1) * PI / 180).
Proof.
intros [Hlo Hhi]. unfold haversine_km. cbv zeta.
pose proof PI_RGT_0 as Hpi.
set (t := (lat2 - lat1) * PI / 180 / 2).
assert (0 <= t < PI / 2) as [Ht0 Ht1].
{ unfold t. split; [nra | nra]. }
replace ((lng0 - lng0) * PI / 180 / 2) with 0 by lra.
rewrite sin_0.
replace (sin t * sin t + cos (lat1 * PI / 180) * cos (lat2 * PI / 180) * 0 * 0)
  with (sin t * sin t) by ring.
assert (0 <= sin t) as Hs by (apply sin_ge_0; lra).
assert (0 < cos t) as Hc by (apply cos_gt_0; lra).
replace (1 - sin t * sin t) with (cos t * cos t).
2:{ pose proof (sin2_cos2 t) as H. unfold Rsqr in H. lra. }
rewrite (sqrt_square (sin t)) by exact Hs.
rewrite (sqrt_square (cos t)) by lra.
unfold atan2. destruct (Rlt_dec 0 (cos t)) as [_ | Hn]; [| contradiction].
change (sin t / cos t) with (tan t).
rewrite atan_tan by lra.
unfold t. lra.
Qed.

End Meridian.

(** ** The distance of an itinerary: latitudes the guard rejects *)

Section Distance.

Import JS GeoSpec Sample.

Lemma usable_false_iff (p : option Location) :
  usable p = false <-> lat_zero_or_absent p.
Proof.
unfold usable, truthy, lat_zero_or_absent.
destruct (opt_lat p) as [r |].
- destruct (Req_dec_T r 0) as [-> | Hr].
  + split; [right; reflexivity | reflexivity].
  + split; [discriminate |].
    intros [H | H]; [discriminate | injection H as ->; contradiction].
- split; [left; reflexivity | reflexivity].
Qed.

(** A point the guard rejects cuts the path in two. *)
Lemma sum_legs_cut (l1 l2 : list (option Location)) (p : option Location) :
  usable p = false ->
  sum_legs (l1 ++ p :: l2) = (sum_legs l1 + sum_legs l2)%js.
Proof.
intros Hp. induction l1 as [| a l1 IH].
- cbn [app]. rewrite add_0_l. destruct l2 as [| q l2]; [reflexivity |].
  rewrite sum_legs_cons. unfold contribution. rewrite Hp. cbn [andb].
  apply add_0_l.
- destruct l1 as [| b l1].
  + cbn [app] in *. rewrite sum_legs_cons, IH.
    unfold contribution at 1. rewrite Hp, andb_false_r.
    cbn [sum_legs]. rewrite !add_0_l. reflexivity.
  + change ((a :: b :: l1) ++ p :: l2) with (a :: b :: (l1 ++ p :: l2)).
    rewrite 2 sum_legs_cons.
    change (b :: l1 ++ p :: l2) with ((b :: l1) ++ p :: l2).
    rewrite IH. apply add_assoc.
Qed.

(** Over the reals, the distance the specification describes for an
    origin without latitude, a stop at 1 degree north and a destination
    at 2 degrees north on one meridian is one degree of latitude, which
    rounds to 1 at least. *)
Lemma spec_distance_one_degree :
  spec_distance without_latitude [place 1 0] (place 2 0) false
  = Num (IZR (round (6371 * (PI / 180))))
  /\ (1 <= round (6371 * (PI / 180)))%Z.
Proof.
split.
- unfold spec_distance. cbn [app spec_path].
  unfold spec_leg at 1. cbn [has_coordinates without_latitude opt_lat lat andb].
  unfold spec_leg. cbn [has_coordinates place opt_lat opt_lng lat lng andb].
  unfold between. cbn [coord place opt_lat opt_lng lat lng].
  rewrite haversine_meridian by lra.
  do 3 f_equal. lra.
- unfold round. apply Zfloor_lub. pose proof PI2_3_2. lra.
Qed.

Lemma round_0 : round 0 = 0%Z.
Proof. apply round_eq. simpl. lra. Qed.



End Distance.

(** ** Doubles: rounding to integers, signs *)

Section DoubleNumbers.

Import PrimFloat FloatOps FloatAxioms SpecFloat Double.

(** [Math.round] takes a tie upwards, [Math.floor] and [Math.ceil] keep
    the sign on a zero, and a tie is written away from zero. *)
Lemma rounding_examples :
  Math_round 2.5 = 3%float /\ Math_round (-2.5) = (-2)%float
  /\ Math_round (-0.5) = neg_zero /\ Math_round 0.49999999999999994 = 0%float
  /\ Math_floor (-0.5) = (-1)%float /\ Math_floor 0.5 = 0%float
  /\ Math_ceil (-0.5) = neg_zero /\ Math_ceil 0.5 = 1%float
  /\ Math_ceil (50000 * 1.1) = 55001%float
  /\ round_half_expand 8797.5 = Digits false 8798
  /\ round_half_expand (-2.5) = Digits true 3
  /\ round_half_expand 2.4999999999999996 = Digits false 2.
Proof. repeat split; vm_compute; reflexivity. Qed.

Lemma not_negative_sign_free (x : float) :
  not_negative x <-> sign_free (Prim2SF x) = true.
Proof.
unfold not_negative. rewrite ltb_spec.
replace (Prim2SF 0%float) with (S754_zero false) by reflexivity.
destruct (Prim2SF x) as [[] | [] | | [] m e]; cbn; split; congruence.
Qed.

Lemma round_aux_sign_free (m e : Z) (l : location) :
  sign_free (binary_round_aux prec emax false m e l) = true.
Proof.
unfold binary_round_aux.
destruct (shr_fexp prec emax m e l) as [mrs' e'].
destruct (shr_fexp prec emax _ e' loc_Exact) as [mrs'' e''].
destruct (shr_m mrs''); [reflexivity | | reflexivity].
destruct (Z.leb e'' (emax - prec)); reflexivity.
Qed.

Lemma round_sign_free (m : positive) (e : Z) :
  sign_free (binary_round prec emax false m e) = true.
Proof.
unfold binary_round.
destruct (shl_align m e _) as [mz ez]. apply round_aux_sign_free.
Qed.

Lemma mul_not_negative (x y : float) :
  not_negative x -> not_negative y -> not_negative (x * y)%float.
Proof.
rewrite !not_negative_sign_free, mul_spec. unfold SF64mul.
destruct (Prim2SF x) as [[] | [] | | [] mx ex];
  destruct (Prim2SF y) as [[] | [] | | [] my ey]; cbn [sign_free SFmul xorb];
  try reflexivity; try discriminate.
intros _ _. apply round_aux_sign_free.
Qed.

Lemma add_not_negative (x y : float) :
  not_negative x -> not_negative y -> not_negative (x + y)%float.
Proof.
rewrite !not_negative_sign_free, add_spec. unfold SF64add.
destruct (Prim2SF x) as [[] | [] | | [] mx ex];
  destruct (Prim2SF y) as [[] | [] | | [] my ey]; cbn [sign_free SFadd];
  try reflexivity; try discriminate.
intros _ _. cbn [cond_Zopp Z.add binary_normalize].
apply round_sign_free.
Qed.

Lemma sqrt_not_negative (x : float) : not_negative (sqrt x).
Proof.
rewrite not_negative_sign_free, sqrt_spec. unfold SF64sqrt.
destruct (Prim2SF x) as [[] | [] | | [] mx ex]; cbn [sign_free SFsqrt];
  try reflexivity.
destruct (SFsqrt_core_binary prec emax (Z.pos mx) ex) as [[mz ez] lz].
apply round_aux_sign_free.
Qed.

Lemma round_aux_positive_zero (m e : Z) (l : location) :
  binary_round_aux prec emax false m e l <> S754_zero true.
Proof.
unfold binary_round_aux.
destruct (shr_fexp prec emax m e l) as [mrs' e'].
destruct (shr_fexp prec emax _ e' loc_Exact) as [mrs'' e''].
destruct (shr_m mrs''); [discriminate | | discriminate].
destruct (Z.leb e'' (emax - prec)); discriminate.
Qed.

(** The root is -0 for -0 only. *)
Lemma sqrt_neg_zero (x : float) : sqrt x = neg_zero -> x = neg_zero.
Proof.
intros H. apply Prim2SF_inj.
assert (Prim2SF (sqrt x) = S754_zero true) as Hs by (rewrite H; reflexivity).
rewrite sqrt_spec in Hs. unfold SF64sqrt in Hs.
replace (Prim2SF neg_zero) with (S754_zero true) by reflexivity.
destruct (Prim2SF x) as [[] | [] | | [] mx ex]; cbn [SFsqrt] in Hs;
  try discriminate Hs; try reflexivity.
exfalso.
destruct (SFsqrt_core_binary prec emax (Z.pos mx) ex) as [[mz ez] lz].
exact (round_aux_positive_zero mz ez lz Hs).
Qed.

Lemma abs_not_negative (x : float) : not_negative (abs x).
Proof.
rewrite not_negative_sign_free, abs_spec.
destruct (Prim2SF x) as [[] | [] | | [] mx ex]; reflexivity.
Qed.

Lemma of_uint63_not_negative (n : PrimInt63.int) : not_negative (of_uint63 n).
Proof.
rewrite not_negative_sign_free, of_uint63_spec.
pose proof (Uint63.to_Z_bounded n) as [Hlo _].
destruct (Uint63Axioms.to_Z n) as [| p | p]; cbn [binary_normalize].
- reflexivity.
- apply round_sign_free.
- exfalso. lia.
Qed.

Lemma of_integer_not_negative (n : Z) : not_negative (of_integer false n).
Proof.
unfold of_integer. destruct (n =? 0)%Z; [reflexivity |].
apply of_uint63_not_negative.
Qed.

Lemma Math_round_not_negative (x : float) :
  not_negative x -> not_negative (Math_round x).
Proof.
intros H. unfold Math_round.
destruct (Prim2SF x) as [[] | [] | | s m e] eqn:Hx; try exact H.
destruct (0 <=? e)%Z; [exact H |].
destruct s; [| apply of_integer_not_negative].
exfalso. apply not_negative_sign_free in H. rewrite Hx in H. discriminate H.
Qed.

(** Multiplying by one is exact. *)
Lemma mul_one (x : float) : (x * 1)%float = x.
Proof.
apply Prim2SF_inj. rewrite mul_spec. unfold SF64mul.
pose proof (Prim2SF_valid x) as Hvalid.
replace (Prim2SF 1%float) with (S754_finite false 4503599627370496 (-52))
  by reflexivity.
destruct (Prim2SF x) as [s | s | | s m e]; cbn [SFmul];
  rewrite ?xorb_false_r; try reflexivity.
cbn [valid_binary] in Hvalid. unfold bounded, canonical_mantissa in Hvalid.
apply andb_prop in Hvalid as [Hcanon Hbound].
apply Z.eqb_eq in Hcanon.
rewrite (Pos.mul_comm m). cbn [Pos.mul].
unfold binary_round_aux, shr_fexp at 1. cbn [Zdigits2 digits2_pos].
match goal with
| |- context [(fexp prec emax ?a - ?b)%Z] =>
    replace (fexp prec emax a - b)%Z with 52%Z
      by (replace a with (Z.pos (digits2_pos m) + e)%Z by lia;
          rewrite Hcanon; lia)
end.
cbv [shr shr_record_of_loc iter_pos shr_1 orb].
replace (e + -52 + 52)%Z with e by lia.
unfold shr_fexp.
cbn [shr_m loc_of_shr_record round_nearest_even Zdigits2 shr_record_of_loc].
rewrite Hcanon, Z.sub_diag. cbn [shr shr_m]. rewrite Hbound. reflexivity.
Qed.

(** Adding zero changes -0 only. *)
Lemma add_zero (x : float) : x <> neg_zero -> (x + 0)%float = x.
Proof.
intros H. apply Prim2SF_inj. rewrite add_spec. unfold SF64add.
replace (Prim2SF 0%float) with (S754_zero false) by reflexivity.
destruct (Prim2SF x) as [[] | [] | | s m e] eqn:Hx; try reflexivity.
exfalso. apply H, Prim2SF_inj. rewrite Hx. reflexivity.
Qed.

End DoubleNumbers.

(** ** The loop of [calculateTotalDistance] on doubles *)

Section TripLoop.

Import PrimFloat Double Trip TripSpec.

Lemma consecutive_cons (p q : option Location) (rest : list (option Location)) :
  consecutive (p :: q :: rest) = (p, q) :: consecutive (q :: rest).
Proof. reflexivity. Qed.

Lemma loop_body_leg (M : MathLib) (pre : list (option Location))
  (p q : option Location) (rest : list (option Location)) (sum : float) :
  loop_body M (pre ++ p :: q :: rest) sum (List.length pre)
  = loop_leg M sum (p, q).
Proof.
unfold loop_body, loop_leg. cbn [fst snd].
replace (nth (S (List.length pre)) (pre ++ p :: q :: rest) None) with q.
2:{ replace (pre ++ p :: q :: rest) with ((pre ++ [p]) ++ q :: rest)
      by (rewrite <- app_assoc; reflexivity).
    replace (S (List.length pre)) with (List.length (pre ++ [p]))
      by (rewrite length_app; simpl; lia).
    rewrite nth_middle. reflexivity. }
rewrite nth_middle.
destruct (truthy (opt_lat p)), (truthy (opt_lat q)); reflexivity.
Qed.

Lemma loop_from_index (M : MathLib) (rest pre : list (option Location))
  (sum : float) :
  fold_left (loop_body M (pre ++ rest))
    (seq (List.length pre) (List.length rest - 1)) sum
  = fold_left (loop_leg M) (consecutive rest) sum.
Proof.
revert pre sum. induction rest as [| p rest IH]; intros pre sum.
- reflexivity.
- destruct rest as [| q rest].
  + reflexivity.
  + replace (List.length (p :: q :: rest) - 1)%nat
      with (S (List.length (q :: rest) - 1)) by (simpl; lia).
    rewrite <- cons_seq, consecutive_cons. cbn [fold_left].
    rewrite loop_body_leg.
    specialize (IH (pre ++ [p]) (loop_leg M sum (p, q))).
    rewrite <- app_assoc in IH. cbn [app] in IH.
    replace (List.length (pre ++ [p])) with (S (List.length pre)) in IH
      by (rewrite length_app; simpl; lia).
    exact IH.
Qed.

(** The loop runs through the consecutive pairs, from the first. *)
Lemma loop_is_total (M : MathLib) (points : list (option Location)) :
  fold_left (loop_body M points) (seq 0 (List.length points - 1)) 0%float
  = loop_total M points.
Proof. exact (loop_from_index M points [] 0%float). Qed.

Lemma distance_loop_total (M : MathLib) (origin : option Location)
  (stops : list (option Location)) (destination : option Location)
  (isReturn : bool) :
  calculateTotalDistance M origin stops destination isReturn
  = if passes_guard origin destination
    then
      let sum := loop_total M (origin :: stops ++ [destination]) in
      Math_round (if isReturn then sum * 2 else sum)%float
    else 0%float.
Proof.
unfold calculateTotalDistance, passes_guard.
destruct (truthy (opt_lat origin)), (truthy (opt_lat destination));
  cbn [negb orb andb]; try reflexivity.
cbv zeta. rewrite loop_is_total. reflexivity.
Qed.

Lemma regular_point (p : option Location) :
  (forall x, opt_lat p = Some x -> truthy_number x = true) ->
  (opt_lat p <> None -> opt_lng p <> None) ->
  truthy (opt_lat p) = has_coordinates p.
Proof.
unfold truthy, has_coordinates. intros Hlat Hlng.
destruct (opt_lat p) as [x |]; [| reflexivity].
rewrite (Hlat x eq_refl).
destruct (opt_lng p); [reflexivity |].
exfalso. apply Hlng; [discriminate | reflexivity].
Qed.

Lemma loop_leg_regular (M : MathLib) (p q : option Location) (sum : float) :
  truthy (opt_lat p) = has_coordinates p ->
  truthy (opt_lat q) = has_coordinates q ->
  loop_leg M sum (p, q) = add_leg M sum (p, q).
Proof.
intros Hp Hq. unfold loop_leg, add_leg. cbn [fst snd]. rewrite Hp, Hq.
reflexivity.
Qed.

Lemma loop_total_regular (M : MathLib) (points : list (option Location)) :
  regular points -> loop_total M points = total M points.
Proof.
unfold loop_total, total. generalize 0%float as sum.
induction points as [| p rest IH]; intros sum H; [reflexivity |].
destruct rest as [| q rest]; [reflexivity |].
rewrite consecutive_cons. cbn [fold_left].
rewrite loop_leg_regular.
- apply IH. intros x Hx. apply H. right. exact Hx.
- apply regular_point; apply (H p); left; reflexivity.
- apply regular_point; apply (H q); right; left; reflexivity.
Qed.

Lemma segment_not_negative (M : MathLib) (p q : option Location) :
  atan2_keeps_sign M -> not_negative (segment M p q).
Proof.
intros H. unfold segment. cbv zeta.
apply mul_not_negative; [reflexivity |].
apply mul_not_negative; [reflexivity |].
apply H; [apply sqrt_not_negative |].
unfold Math_sqrt. intros Hzero. apply sqrt_neg_zero in Hzero.
rewrite Hzero. reflexivity.
Qed.

Lemma loop_total_not_negative (M : MathLib) (points : list (option Location)) :
  atan2_keeps_sign M -> not_negative (loop_total M points).
Proof.
intros H. unfold loop_total.
assert (not_negative 0%float) as Hsum by reflexivity.
revert Hsum. generalize 0%float as sum.
induction points as [| p rest IH]; intros sum Hsum; [exact Hsum |].
destruct rest as [| q rest]; [exact Hsum |].
rewrite consecutive_cons. cbn [fold_left]. apply IH.
unfold loop_leg. cbn [fst snd].
destruct (truthy (opt_lat p) && truthy (opt_lat q)); [| exact Hsum].
apply add_not_negative; [exact Hsum | apply segment_not_negative, H].
Qed.

Lemma small_angles_keep_sign : atan2_keeps_sign SmallAngles.engine.
Proof.
intros y x _ _. cbn [Math_atan2 SmallAngles.engine]. unfold SmallAngles.atan2.
destruct ((0 <=? y)%float && (0 <? x)%float && (y / x <? 0.4375)%float).
- apply abs_not_negative.
- reflexivity.
Qed.

End TripLoop.

(** ** The distance of an itinerary on doubles *)

Section TripDistance.

Import PrimFloat Double Trip TripSpec Sample64.

(** C3, as amended: when the origin or the destination has no latitude
    the distance is 0, whatever the stops are. Otherwise, for an
    itinerary in which no latitude is 0 or [NaN] and each point that
    has a latitude has a longitude, the distance is the sum, taken in
    double precision from the first pair to the last, of the haversine
    distances (Earth radius 6371 km) over the consecutive pairs of
    [origin, ...stops, destination], a pair being skipped when a
    latitude or longitude is missing at either end, doubled for a round
    trip and then rounded to the nearest integer by [Math.round]. *)
Theorem distance_is_rounded_path (M : MathLib) (origin : option Location)
  (stops : list (option Location)) (destination : option Location)
  (isReturn : bool) :
  (opt_lat origin = None \/ opt_lat destination = None ->
   calculateTotalDistance M origin stops destination isReturn = 0%float)
  /\ (regular (origin :: stops ++ [destination]) ->
      opt_lat origin <> None -> opt_lat destination <> None ->
      calculateTotalDistance M origin stops destination isReturn
      = spec_distance M origin stops destination isReturn).
Proof.
rewrite distance_loop_total. unfold passes_guard. split.
- intros [H | H]; rewrite H; cbn [truthy andb];
    rewrite ?andb_false_r; reflexivity.
- intros Hreg Ho Hd.
  assert (forall p, In p (origin :: stops ++ [destination]) ->
          opt_lat p <> None -> truthy (opt_lat p) = true) as Hlat.
  { intros p Hp Hsome. destruct (Hreg p Hp) as [Hx _].
    destruct (opt_lat p) as [x |]; [exact (Hx x eq_refl) | contradiction]. }
  assert (In destination (origin :: stops ++ [destination])) as Hin
    by (right; apply in_or_app; right; left; reflexivity).
  rewrite (Hlat origin (or_introl eq_refl) Ho), (Hlat destination Hin Hd).
  cbn [andb]. cbv zeta. rewrite (loop_total_regular M _ Hreg). reflexivity.
Qed.

Lemma distance_is_rounded_path_witness :
  calculateTotalDistance SmallAngles.engine (place 1 0) [place 2 0]
    (place 3 0) true
  = spec_distance SmallAngles.engine (place 1 0) [place 2 0] (place 3 0) true.
Proof.
apply (proj2 (distance_is_rounded_path SmallAngles.engine (place 1 0)
                [place 2 0] (place 3 0) true)).
- intros p [<- | [<- | [<- | []]]]; split;
    try (intros x Hx; injection Hx as <-; reflexivity);
    intros _; discriminate.
- discriminate.
- discriminate.
Defined.

(** C3, as stated, fails: an origin without latitude makes the code
    return 0 whatever the engine, while the pair (stop, destination)
    has both its ends and is not skipped: the sum the claim describes
    is the haversine distance of one degree of latitude, 111 km, which
    over the reals is [6371 * PI / 180] and rounds to 1 at least. *)
Lemma distance_guard_counterexample :
  (forall M,
     calculateTotalDistance M without_latitude [place 1 0] (place 2 0) false
     = 0%float)
  /\ (forall M,
        spec_distance M without_latitude [place 1 0] (place 2 0) false
        = Math_round (0 + haversine_km M 1 0 2 0)%float)
  /\ spec_distance SmallAngles.engine without_latitude [place 1 0] (place 2 0)
       false = 111%float
  /\ GeoSpec.spec_distance Sample.without_latitude [Sample.place 1 0]
       (Sample.place 2 0) false
     = JS.Num (IZR (JS.round (6371 * (PI / 180))))
  /\ (1 <= JS.round (6371 * (PI / 180)))%Z.
Proof.
split; [reflexivity |]. split; [reflexivity |].
split; [vm_compute; reflexivity |]. exact spec_distance_one_degree.
Qed.




End TripDistance.

(** ** Prices on doubles *)

Section Quotes.

Import PrimFloat FloatOps FloatAxioms SpecFloat Double Quote QuoteSpec Sample64.

Lemma cost_is_sum (s : BookingSummary.Services) :
  getAdditionalServicesCost s = service_sum s.
Proof. destruct s as [[] [] [] []]; vm_compute; reflexivity. Qed.

Lemma IZR_two_power (p : positive) :
  IZR (2 ^ Z.pos p) = (2 ^ Pos.to_nat p)%R.
Proof. rewrite (pow_IZR 2 (Pos.to_nat p)), positive_nat_Z. reflexivity. Qed.

Lemma powerRZ_two_nonneg (e : Z) :
  (0 <= e)%Z -> powerRZ 2 e = IZR (2 ^ e).
Proof.
intros He. destruct e as [| p | p].
- reflexivity.
- rewrite IZR_two_power. reflexivity.
- lia.
Qed.

Lemma powerRZ_two_neg (p : positive) :
  powerRZ 2 (Z.neg p) = (/ IZR (2 ^ Z.pos p))%R.
Proof. rewrite IZR_two_power. reflexivity. Qed.

Lemma Rabs_finite (s : bool) (m : positive) (e : Z) :
  Rabs ((if s then -1 else 1) * IZR (Z.pos m) * powerRZ 2 e)
  = (IZR (Z.pos m) * powerRZ 2 e)%R.
Proof.
assert (0 < IZR (Z.pos m))%R as Hm by (apply IZR_lt; lia).
assert (0 < powerRZ 2 e)%R as Hp by (apply powerRZ_lt; lra).
assert (0 < IZR (Z.pos m) * powerRZ 2 e)%R as Hpos
  by (apply Rmult_lt_0_compat; assumption).
destruct s.
- replace (-1 * IZR (Z.pos m) * powerRZ 2 e)%R
    with (- (IZR (Z.pos m) * powerRZ 2 e))%R by ring.
  rewrite Rabs_Ropp. apply Rabs_pos_eq. lra.
- rewrite Rmult_1_l. apply Rabs_pos_eq. lra.
Qed.

Lemma half_expand_nearest (m d : Z) :
  (0 < m)%Z -> (0 < d)%Z ->
  (0 <= (2 * m + d) / (2 * d))%Z
  /\ (Rabs (IZR ((2 * m + d) / (2 * d)) - IZR m * / IZR d) <= / 2)%R
  /\ (forall k, (IZR m * / IZR d = IZR k + / 2)%R ->
      ((2 * m + d) / (2 * d) = k + 1)%Z).
Proof.
intros Hm Hd.
set (q := ((2 * m + d) / (2 * d))%Z).
assert (2 * d * q <= 2 * m + d < 2 * d * q + 2 * d)%Z as [Hlo Hhi].
{ pose proof (Z.div_mod (2 * m + d) (2 * d)) as Hdm.
  pose proof (Z.mod_pos_bound (2 * m + d) (2 * d)) as Hmod.
  fold q in Hdm. lia. }
assert (0 < IZR d)%R as HD by (apply IZR_lt; exact Hd).
assert (IZR m * / IZR d * IZR d = IZR m)%R as Hy by (field; lra).
split; [apply Z.div_pos; lia |]. split.
- apply IZR_le in Hlo. apply IZR_lt in Hhi.
  repeat rewrite ?plus_IZR, ?mult_IZR in Hlo.
  repeat rewrite ?plus_IZR, ?mult_IZR in Hhi.
  set (y := (IZR m * / IZR d)%R) in *.
  apply Rabs_le. split; nra.
- intros k Hk. rewrite Hk in Hy.
  assert (IZR (2 * m) = IZR ((2 * k + 1) * d)) as Heq.
  { repeat rewrite ?plus_IZR, ?mult_IZR. lra. }
  apply eq_IZR in Heq. nia.
Qed.

(** The integer written is the nearest to the magnitude of the double,
    the upper one where the magnitude lies half way between two, and it
    is not negative. *)
Lemma round_half_expand_nearest (x : float) (negative : bool) (units : Z) :
  round_half_expand x = Digits negative units ->
  (0 <= units)%Z
  /\ (Rabs (IZR units - Rabs (to_R x)) <= / 2)%R
  /\ (forall k, (Rabs (to_R x) = IZR k + / 2)%R -> units = (k + 1)%Z).
Proof.
unfold round_half_expand, to_R.
destruct (Prim2SF x) as [s | s | | s m e]; try discriminate.
- intros H. injection H as _ <-. split; [lia |]. split.
  + rewrite Rabs_R0, Rminus_0_r, Rabs_R0. lra.
  + intros k Hk. rewrite Rabs_R0 in Hk. exfalso.
    assert (IZR (2 * k + 1) = IZR 0) as Heq
      by (rewrite plus_IZR, mult_IZR; lra).
    apply eq_IZR in Heq. lia.
- rewrite Rabs_finite. intros H.
  assert (units
          = if (0 <=? e)%Z then (Z.pos m * 2 ^ e)%Z
            else ((2 * Z.pos m + 2 ^ (- e)) / (2 * 2 ^ (- e)))%Z) as ->
    by congruence.
  clear H. destruct (Z.leb_spec 0 e) as [He | He].
  + assert (0 < 2 ^ e)%Z by (apply Z.pow_pos_nonneg; lia).
    rewrite (powerRZ_two_nonneg e He), <- mult_IZR.
    split; [lia |]. split.
    * rewrite Rminus_diag, Rabs_R0. lra.
    * intros k Hk. exfalso.
      assert (IZR (2 * (Z.pos m * 2 ^ e)) = IZR (2 * k + 1)) as Heq
        by (rewrite (mult_IZR 2), plus_IZR, (mult_IZR 2 k); lra).
      apply eq_IZR in Heq. lia.
  + destruct e as [| p | p]; try lia.
    rewrite powerRZ_two_neg. change (- Z.neg p)%Z with (Z.pos p).
    apply half_expand_nearest; [lia | apply Z.pow_pos_nonneg; lia].
Qed.




(** C1, as amended: the estimate range runs from
    [Math.floor (basePrice * 0.9)] to [Math.ceil (basePrice * 1.1)],
    the products taken in double precision, from the base price alone
    and before the currency conversion; the selected services do not
    enter it. With no service selected it is the range of the total. A
    base price of 50000 has the upper bound 55001, the double product
    lying above 55000. *)
Theorem price_range_of_base_price (v : View) :
  priceRange v
  = (formatPrice (Math_floor (basePrice v * 0.9)) (selectedCurrency v),
     formatPrice (Math_ceil (basePrice v * 1.1)) (selectedCurrency v))
  /\ (forall s, priceRange (setSelectedServices s v) = priceRange v)
  /\ (basePrice v <> neg_zero ->
      priceRange (setSelectedServices PricingSpec.no_service v)
      = spec_range (setSelectedServices PricingSpec.no_service v))
  /\ minPrice flight_50000 = 45000%float
  /\ maxPrice flight_50000 = 55001%float.
Proof.
split; [reflexivity |]. split; [reflexivity |]. split.
- intros Hb. unfold priceRange, spec_range, minPrice, maxPrice, spec_total.
  cbn [setSelectedServices selectedServices basePrice selectedCurrency].
  change (service_sum PricingSpec.no_service) with 0%float.
  rewrite (add_zero _ Hb). reflexivity.
- split; vm_compute; reflexivity.
Qed.

Lemma price_range_of_base_price_witness :
  priceRange (setSelectedServices PricingSpec.no_service flight_1000)
  = spec_range (setSelectedServices PricingSpec.no_service flight_1000).
Proof.
apply (proj1 (proj2 (proj2 (price_range_of_base_price flight_1000)))).
intros H. apply (f_equal Prim2SF) in H. vm_compute in H. discriminate H.
Defined.

(** C1, as stated, fails: with a base price of 1000 and catering (350)
    selected the total is 1350 and the range shown is 900 to 1100,
    where the range of the total is 1215 to 1486. *)
Lemma price_range_counterexample :
  totalPrice with_catering = 1350%float
  /\ priceRange with_catering
     = (mkFormatted "EUR" (Digits false 900),
        mkFormatted "EUR" (Digits false 1100))
  /\ spec_range with_catering
     = (mkFormatted "EUR" (Digits false 1215),
        mkFormatted "EUR" (Digits false 1486))
  /\ priceRange with_catering <> spec_range with_catering.
Proof.
assert (priceRange with_catering
        = (mkFormatted "EUR" (Digits false 900),
           mkFormatted "EUR" (Digits false 1100))) as Hcode
  by (vm_compute; reflexivity).
assert (spec_range with_catering
        = (mkFormatted "EUR" (Digits false 1215),
           mkFormatted "EUR" (Digits false 1486))) as Hspec
  by (vm_compute; reflexivity).
split; [vm_compute; reflexivity |]. split; [exact Hcode |].
split; [exact Hspec |]. rewrite Hcode, Hspec. discriminate.
Qed.

End Quotes.

(** ** The steps of the booking wizard *)

Section BookingSteps.

Import BookingSummary.

Lemma booking_invariant (p : Props) (st : State) :
  reachable p st ->
  (1 <= currentStep st <= totalSteps st)%Z /\ totalSteps st = booking_steps p.
Proof.
induction 1 as [| st ev _ [Hrange Htotal]].
- unfold mount, totalSteps_effect, booking_steps.
  cbn [currentStep totalSteps setTotalSteps initial].
  destruct (0 <? List.length (stops p))%nat; lia.
- destruct ev; cbn [handle];
    unfold nextStep, prevStep, handleRequestQuote, handleServiceToggle,
      handleContactInfoChange;
    repeat match goal with
    | |- context [(?a <? ?b)%Z] => destruct (Z.ltb_spec a b)
    | |- context [(?a >? ?b)%Z] =>
        rewrite (Z.gtb_ltb a b); destruct (Z.ltb_spec b a)
    | |- context [isFormValid ?s] => destruct (isFormValid s)
    end; cbn; lia.
Qed.

End BookingSteps.

(** ** The steps of the checkout form *)

Section CheckoutSteps.

Import CheckoutForm.

Lemma handlePayment_keeps (p : Props) (st : State) :
  currentStep (fst (handlePayment p st)) = currentStep st
  /\ formData (fst (handlePayment p st)) = formData st
  /\ success (fst (handlePayment p st)) = success st.
Proof.
unfold handlePayment. cbn [formData setError setLoading].
destruct (negb (nonempty (name (formData st)))
          || negb (nonempty (email (formData st)))
          || negb (nonempty (phone (formData st)))); [cbn; tauto |].
destruct (String.eqb (offerType p) "fixed_offer"
          && negb (startsWith (offerId p) "custom-")); [cbn; tauto |].
destruct (String.eqb (offerType p) "empty_leg"); cbn; tauto.
Qed.

Lemma handlePayment_resume_keeps (p : Props) (st : State) (r : Settled) :
  currentStep (fst (handlePayment_resume p st r)) = currentStep st
  /\ formData (fst (handlePayment_resume p st r)) = formData st.
Proof.
unfold handlePayment_resume.
destruct (pending st) as [[] |], r as [m | e | b e]; cbn;
  try tauto; destruct (truthy_error e); cbn; try tauto;
  destruct b; cbn; tauto.
Qed.

Lemma isFormValid_step1 (st : State) :
  currentStep st = 1%Z -> isFormValid st = required_filled (formData st).
Proof. intros H. unfold isFormValid, required_filled. rewrite H. reflexivity. Qed.

Lemma checkout_invariant (p : Props) (st : State) :
  reachable p st -> (1 <= currentStep st <= 2)%Z.
Proof.
induction 1 as [| st ev _ IH].
- cbn. lia.
- destruct (handlePayment_keeps p st) as (Hpay & _).
  destruct ev; cbn [handle];
    unfold nextStep, prevStep, handleInputChange;
    repeat match goal with
    | |- context [if success ?s then _ else _] => destruct (success s)
    | |- context [if next_disabled ?s then _ else _] =>
        destruct (next_disabled s)
    | |- context [(?a <? ?b)%Z] => destruct (Z.ltb_spec a b)
    | |- context [(?a =? ?b)%Z] => destruct (Z.eqb_spec a b)
    | |- context [(?a >? ?b)%Z] =>
        rewrite (Z.gtb_ltb a b); destruct (Z.ltb_spec b a)
    end; cbn; try rewrite Hpay; try lia.
  destruct (handlePayment_resume_keeps p st r) as [-> _]. lia.
Qed.

(** On the rendered form the second step is only reached with the
    required fields filled, and they cannot change there. *)
Lemma confirmation_has_contact (p : Props) (st : State) :
  ui_reachable p st ->
  (1 <= currentStep st <= 2)%Z
  /\ (currentStep st = 2%Z -> required_filled (formData st) = true).
Proof.
induction 1 as [| st ev _ [Hrange Hfilled] Hev].
- cbn. split; [lia | intros H; discriminate H].
- destruct (handlePayment_keeps p st) as (Hpay & Hdata & _).
  destruct ev; try discriminate Hev; cbn [handle].
  + (* ClickNext *)
    destruct (success st); [cbn; auto |].
    destruct (next_disabled st) eqn:Hdis; [cbn; auto |].
    unfold nextStep. destruct (Z.ltb_spec (currentStep st) 2).
    * cbn. split; [lia |]. intros _.
      assert (currentStep st = 1%Z) as H1 by lia.
      unfold next_disabled in Hdis. apply orb_false_elim in Hdis as [_ Hv].
      apply negb_false_iff in Hv. rewrite isFormValid_step1 in Hv by exact H1.
      exact Hv.
    * rewrite Hpay, Hdata. auto.
  + (* ClickBack *)
    destruct (success st); [cbn; auto |].
    unfold prevStep. rewrite Z.gtb_ltb.
    destruct (Z.ltb_spec 1 (currentStep st)); cbn; [| auto].
    split; [lia |]. intros H2. lia.
  + (* ClickClose *)
    destruct (success st); cbn; auto.
  + (* Input *)
    destruct (success st); [cbn; auto |].
    destruct (Z.eqb_spec (currentStep st) 1) as [H1 | H1]; [| cbn; auto].
    unfold handleInputChange. cbn. split; [lia |]. intros H2. lia.
  + (* Settle *)
    destruct (handlePayment_resume_keeps p st r) as [-> ->]. auto.
Qed.

Lemma ui_reachable_run (p : Props) (evs : list Event) (st : State) :
  ui_reachable p st -> forallb rendered evs = true ->
  ui_reachable p (run p st evs).
Proof.
revert st. induction evs as [| ev evs IH]; intros st Hst Hevs.
- exact Hst.
- cbn in Hevs. apply andb_true_iff in Hevs as [Hev Hevs].
  unfold run. cbn [fold_left]. apply IH; [| exact Hevs].
  apply ui_handle; assumption.
Qed.

Lemma ui_reachable_reachable (p : Props) (st : State) :
  ui_reachable p st -> reachable p st.
Proof.
induction 1; [apply reachable_initial | apply reachable_handle; assumption].
Qed.

End CheckoutSteps.

(** ** The wizards' transitions *)

Section Transitions.

Import Sample.

(** C5: in every state reached from the initial one, by the next and
    back transitions and by any other event, the current step is in
    [1, totalSteps]: in the booking summary totalSteps is 4 when there
    are stops and 3 when there are none, and the checkout form has 2
    steps. *)
Theorem current_step_in_range :
  (forall p st,
     BookingSummary.reachable p st ->
     (1 <= BookingSummary.currentStep st <= BookingSummary.totalSteps st)%Z
     /\ BookingSummary.totalSteps st
        = match BookingSummary.stops p with
          | [] => 3%Z
          | _ :: _ => 4%Z
          end)
  /\ (forall p st,
        CheckoutForm.reachable p st ->
        (1 <= CheckoutForm.currentStep st <= 2)%Z).
Proof.
split.
- intros p st H. destruct (booking_invariant p st H) as [Hrange Htotal].
  split; [exact Hrange |]. rewrite Htotal.
  unfold BookingSummary.booking_steps.
  destruct (BookingSummary.stops p); reflexivity.
- exact checkout_invariant.
Qed.

Lemma current_step_in_range_witness :
  let st :=
    fst (BookingSummary.handle
           (fst (BookingSummary.handle
                   (BookingSummary.mount flight_with_stop)
                   BookingSummary.Next))
           BookingSummary.Back) in
  (1 <= BookingSummary.currentStep st <= BookingSummary.totalSteps st)%Z
  /\ BookingSummary.totalSteps st = 4%Z.
Proof.
apply (proj1 current_step_in_range flight_with_stop).
do 2 apply BookingSummary.reachable_handle.
apply BookingSummary.reachable_mount.
Defined.

(** C9: at step 1 the back transition calls the cancel collaborator
    ([onBack] of the booking summary, [onClose] of the checkout form)
    once and leaves the state as it is. *)
Theorem back_at_first_step :
  (forall st,
     BookingSummary.currentStep st = 1%Z ->
     BookingSummary.prevStep st = (st, [BookingSummary.onBack]))
  /\ (forall st,
        CheckoutForm.currentStep st = 1%Z ->
        CheckoutForm.prevStep st = (st, [CheckoutForm.onClose])).
Proof.
split; intros st H.
- unfold BookingSummary.prevStep. rewrite H. reflexivity.
- unfold CheckoutForm.prevStep. rewrite H. reflexivity.
Qed.

Lemma back_at_first_step_witness :
  BookingSummary.prevStep (BookingSummary.mount flight_with_stop)
  = (BookingSummary.mount flight_with_stop, [BookingSummary.onBack])
  /\ CheckoutForm.prevStep (CheckoutForm.initial custom_charter)
     = (CheckoutForm.initial custom_charter, [CheckoutForm.onClose]).
Proof.
split.
- apply (proj1 back_at_first_step). reflexivity.
- apply (proj2 back_at_first_step). reflexivity.
Defined.

End Transitions.

Section Checkout.

Import CheckoutForm CheckoutSpec Sample.

Lemma nonempty_false (s : string) : nonempty s = false <-> s = "".
Proof.
unfold nonempty. destruct (String.eqb_spec s ""); simpl; split;
  congruence.
Qed.

Lemma nonempty_true (s : string) : nonempty s = true <-> s <> "".
Proof.
unfold nonempty. destruct (String.eqb_spec s ""); simpl; split;
  congruence.
Qed.

(** C8, as amended: on step 1 of the checkout form the next button
    does nothing when one of name, email and phone is empty; when the
    three are filled it moves to step 2, provided no submission is in
    flight and the form is still shown. *)
Theorem next_from_contact_step (p : Props) (st : State) :
  currentStep st = 1%Z ->
  (name (formData st) = "" \/ email (formData st) = ""
   \/ phone (formData st) = "" ->
   handle p st ClickNext = (st, []))
  /\ (name (formData st) <> "" -> email (formData st) <> "" ->
      phone (formData st) <> "" ->
      loading st = false -> success st = false ->
      handle p st ClickNext = (setCurrentStep 2 st, [])).
Proof.
intros H1. split.
- intros Hempty. cbn [handle].
  destruct (success st); [reflexivity |].
  unfold next_disabled. rewrite isFormValid_step1 by exact H1.
  unfold required_filled.
  destruct Hempty as [H | [H | H]]; apply nonempty_false in H; rewrite H;
    rewrite ?andb_false_r, ?orb_true_r; reflexivity.
- intros Hn He Hp Hl Hs. cbn [handle]. rewrite Hs.
  unfold next_disabled. rewrite Hl, isFormValid_step1 by exact H1.
  unfold required_filled.
  apply nonempty_true in Hn, He, Hp. rewrite Hn, He, Hp. cbn.
  unfold nextStep. rewrite H1. reflexivity.
Qed.

Lemma next_from_contact_step_witness :
  handle custom_charter (initial custom_charter) ClickNext
  = (setCurrentStep 2 (initial custom_charter), []).
Proof.
apply (proj2 (next_from_contact_step custom_charter (initial custom_charter)
                eq_refl)); [discriminate | discriminate | discriminate | |];
  reflexivity.
Defined.

(** C8, as stated, fails: after continue, submit and back while the
    request is in flight, the form is on step 1 with the three fields
    filled, and the next button, disabled by [loading], does not move
    to step 2. *)
Lemma next_while_loading_counterexample :
  let st := run custom_charter (initial custom_charter) back_while_loading in
  ui_reachable custom_charter st
  /\ currentStep st = 1%Z
  /\ name (formData st) <> "" /\ email (formData st) <> ""
  /\ phone (formData st) <> ""
  /\ loading st = true
  /\ handle custom_charter st ClickNext = (st, [])
  /\ currentStep (fst (handle custom_charter st ClickNext)) <> 2%Z.
Proof.
cbv zeta. split.
{ apply ui_reachable_run; [apply ui_initial | reflexivity]. }
repeat split; try discriminate; reflexivity.
Qed.

(** C6: a submission from the confirmation step asks for a hosted
    payment session when the kind is [fixed_offer] and the identifier
    does not start with [custom-], or the kind is [empty_leg]; for any
    other kind and identifier it sends a quote request instead. *)
Theorem checkout_policy (p : Props) (st : State) :
  ui_reachable p st ->
  currentStep st = 2%Z -> loading st = false -> success st = false ->
  snd (handle p st ClickNext)
  = if uses_hosted_session (offerType p) (offerId p)
    then [createCheckoutSession (offerId p) (offerType p) (price p)
            (currency p) (title p) (formData st)]
    else [sendPaymentRequest (offerId p) (offerType p) (email (formData st))
            (formData st)].
Proof.
intros Hreach H2 Hl Hs.
destruct (confirmation_has_contact p st Hreach) as [_ Hfilled].
specialize (Hfilled H2). unfold required_filled in Hfilled.
apply andb_true_iff in Hfilled as [Hfilled Hphone].
apply andb_true_iff in Hfilled as [Hname Hemail].
cbn [handle]. rewrite Hs. unfold next_disabled, isFormValid.
rewrite Hl, H2. cbn [Z.eqb Pos.eqb negb orb].
unfold nextStep. rewrite H2. cbn [Z.ltb Z.compare Pos.compare Pos.compare_cont].
unfold handlePayment. cbn [formData setError setLoading].
rewrite Hname, Hemail, Hphone. cbn [negb orb].
unfold uses_hosted_session, startsWith.
destruct (String.eqb (offerType p) "fixed_offer"
          && negb (String.prefix "custom-" (offerId p))); [reflexivity |].
cbn [orb].
destruct (String.eqb (offerType p) "empty_leg"); reflexivity.
Qed.

Lemma checkout_policy_witness :
  snd (handle custom_charter
         (run custom_charter (initial custom_charter) [ClickNext]) ClickNext)
  = [sendPaymentRequest "custom-1700000000000" "fixed_offer"
       "ada@example.org"
       (formData (initial custom_charter))].
Proof.
apply (checkout_policy custom_charter
         (run custom_charter (initial custom_charter) [ClickNext])).
- apply ui_reachable_run; [apply ui_initial | reflexivity].
- reflexivity.
- reflexivity.
- reflexivity.
Defined.

End Checkout.

(** ** The checkout-session route *)

Section CheckoutSession.

Import Route RouteFields Sample.

(** A body that cannot be read is answered with status 500. *)
Lemma unreadable_body_fails (toLowerCase : string -> string) (stripe : Stripe) :
  POST toLowerCase stripe None
  = (json_error "Failed to create subscription" 500, []).
Proof. reflexivity. Qed.

Lemma POST_without_field (toLowerCase : string -> string) (stripe : Stripe)
  (body : Body) :
  tierId body = None \/ price body = None \/ currency body = None
  \/ name body = None \/ email body = None ->
  POST toLowerCase stripe (Some body)
  = (json_error "Missing required parameters" 400, []).
Proof.
intros H. unfold POST.
destruct H as [H | [H | [H | [H | H]]]]; rewrite H; cbn [truthy negb];
  rewrite ?orb_true_r; reflexivity.
Qed.

(** C7, as amended: a request whose body is an object that lacks one of
    [tierId], [price], [currency], [name] and [email] is answered with
    status 400 and the message that parameters are missing; a request
    whose body cannot be read as an object (no JSON, or [null]), which
    has none of the fields, is answered with status 500. In both cases
    nothing is asked of the payment provider: no customer and no session
    is created. *)
Theorem missing_field_rejected (toLowerCase : string -> string)
  (stripe : Stripe) (request : option Body) :
  lacks_required_field request ->
  fst (POST toLowerCase stripe request)
  = match request with
    | Some _ => json_error "Missing required parameters" 400
    | None => json_error "Failed to create subscription" 500
    end
  /\ snd (POST toLowerCase stripe request) = []
  /\ existsb creates_session (snd (POST toLowerCase stripe request)) = false.
Proof.
intros H. destruct request as [body |].
- rewrite (POST_without_field _ _ _ H). repeat split.
- repeat split.
Qed.

Lemma missing_field_rejected_witness :
  fst (POST lower_letters provider (Some request_without_email))
  = json_error "Missing required parameters" 400
  /\ snd (POST lower_letters provider (Some request_without_email)) = []
  /\ existsb creates_session
       (snd (POST lower_letters provider (Some request_without_email))) = false.
Proof.
apply (missing_field_rejected lower_letters provider
         (Some request_without_email)).
right. right. right. right. reflexivity.
Defined.

(** C7, as stated, fails: a request whose body is [null], or is no JSON
    at all, has none of the required fields, and it is answered with
    status 500 and the message of a failed subscription, not with
    status 400. *)
Lemma missing_field_counterexample :
  lacks_required_field None
  /\ fst (POST lower_letters provider None)
     = json_error "Failed to create subscription" 500
  /\ (forall message,
        fst (POST lower_letters provider None) <> json_error message 400).
Proof.
split; [exact I |]. split; [reflexivity |].
intros message H. discriminate H.
Qed.

End CheckoutSession.

(** * Further properties *)

(** ** The distance: missing longitudes *)

Section TripFacts.

Import PrimFloat FloatOps FloatAxioms SpecFloat Double Trip TripSpec Sample64.

Lemma nan_sub_l (x : float) : (nan - x)%float = nan.
Proof. apply Prim2SF_inj. rewrite sub_spec. reflexivity. Qed.

Lemma nan_sub_r (x : float) : (x - nan)%float = nan.
Proof.
apply Prim2SF_inj. rewrite sub_spec.
change (Prim2SF nan) with S754_nan.
destruct (Prim2SF x) as [| [] | |]; reflexivity.
Qed.

Lemma nan_mul_l (x : float) : (nan * x)%float = nan.
Proof. apply Prim2SF_inj. rewrite mul_spec. reflexivity. Qed.

Lemma nan_mul_r (x : float) : (x * nan)%float = nan.
Proof.
apply Prim2SF_inj. rewrite mul_spec.
change (Prim2SF nan) with S754_nan. destruct (Prim2SF x); reflexivity.
Qed.

Lemma nan_div_l (x : float) : (nan / x)%float = nan.
Proof. apply Prim2SF_inj. rewrite div_spec. reflexivity. Qed.

Lemma nan_add_l (x : float) : (nan + x)%float = nan.
Proof. apply Prim2SF_inj. rewrite add_spec. reflexivity. Qed.

Lemma nan_add_r (x : float) : (x + nan)%float = nan.
Proof.
apply Prim2SF_inj. rewrite add_spec.
change (Prim2SF nan) with S754_nan.
destruct (Prim2SF x) as [| [] | |]; reflexivity.
Qed.

(** Without one of the longitudes the segment is [NaN]. *)
Lemma segment_NaN (M : MathLib) (p q : option Location) :
  keeps_NaN M ->
  match opt_lng p, opt_lng q with
  | Some _, Some _ => true
  | _, _ => false
  end = false ->
  segment M p q = nan.
Proof.
intros [Hsin [Hcos Hatan]] Hlng. unfold segment. cbv zeta.
assert ((to_number (opt_lng q) - to_number (opt_lng p))%float = nan) as ->.
{ destruct (opt_lng p), (opt_lng q); try discriminate Hlng; cbn [to_number];
    rewrite ?nan_sub_l, ?nan_sub_r; reflexivity. }
rewrite !nan_mul_l, !nan_div_l, Hsin, !nan_mul_r, nan_add_r.
unfold Math_sqrt. change (sqrt nan) with nan.
rewrite Hatan, !nan_mul_r. reflexivity.
Qed.

Lemma loop_leg_NaN (M : MathLib) (pair : option Location * option Location) :
  loop_leg M nan pair = nan.
Proof.
unfold loop_leg.
destruct (truthy _ && truthy _); [apply nan_add_l | reflexivity].
Qed.

Lemma loop_NaN (M : MathLib)
  (pairs : list (option Location * option Location)) :
  fold_left (loop_leg M) pairs nan = nan.
Proof.
induction pairs as [| pair pairs IH]; [reflexivity |].
cbn [fold_left]. rewrite loop_leg_NaN. exact IH.
Qed.

Lemma loop_lacking (M : MathLib)
  (pairs : list (option Location * option Location)) (sum : float) :
  keeps_NaN M -> existsb lacks_longitude pairs = true ->
  fold_left (loop_leg M) pairs sum = nan.
Proof.
intros HM. revert sum. induction pairs as [| pair pairs IH]; intros sum H.
- discriminate H.
- cbn [existsb fold_left] in *. apply orb_true_iff in H as [H | H].
  + unfold lacks_longitude in H. apply andb_true_iff in H as [Hlat Hlng].
    apply negb_true_iff in Hlng.
    unfold loop_leg. rewrite Hlat, (segment_NaN M _ _ HM Hlng), nan_add_r.
    apply loop_NaN.
  + apply IH, H.
Qed.

(** X2: the guards read the latitude only. When origin and destination
    pass the guard and some consecutive pair passes the guard on the
    latitudes while one of its longitudes is missing, the distance is
    [NaN], one way and as a round trip, the built-ins returning [NaN]
    for [NaN]. *)
Theorem distance_NaN (M : MathLib) (origin : option Location)
  (stops : list (option Location)) (destination : option Location)
  (isReturn : bool) :
  keeps_NaN M ->
  passes_guard origin destination = true ->
  existsb lacks_longitude (consecutive (origin :: stops ++ [destination]))
  = true ->
  calculateTotalDistance M origin stops destination isReturn = nan.
Proof.
intros HM Hguard Hpair. rewrite distance_loop_total, Hguard. cbv zeta.
unfold loop_total. rewrite (loop_lacking M _ _ HM Hpair).
destruct isReturn; reflexivity.
Qed.

Lemma small_angles_keep_NaN : keeps_NaN SmallAngles.engine.
Proof. repeat split. Qed.

Lemma distance_NaN_witness :
  calculateTotalDistance SmallAngles.engine without_longitude [] (place 2 0)
    true = nan.
Proof.
apply (distance_NaN SmallAngles.engine without_longitude [] (place 2 0) true
         small_angles_keep_NaN); reflexivity.
Defined.

End TripFacts.

(** ** The distance: repeated stops *)

Section DistanceFacts.

Import JS GeoSpec Sample.

Lemma sum_legs_app (l1 l2 : list (option Location)) (p : option Location) :
  sum_legs (l1 ++ p :: l2) = (sum_legs (l1 ++ [p]) + sum_legs (p :: l2))%js.
Proof.
induction l1 as [| a l1 IH].
- cbn [app sum_legs]. symmetry. apply add_0_l.
- destruct l1 as [| b l1].
  + cbn [app]. rewrite !sum_legs_cons. cbn [sum_legs].
    rewrite (add_0_r (contribution a p)). reflexivity.
  + change ((a :: b :: l1) ++ p :: l2) with (a :: (b :: l1) ++ p :: l2).
    change ((a :: b :: l1) ++ [p]) with (a :: (b :: l1) ++ [p]).
    change ((b :: l1) ++ p :: l2) with (b :: (l1 ++ p :: l2)) at 1.
    change ((b :: l1) ++ [p]) with (b :: (l1 ++ [p])) at 1.
    rewrite !sum_legs_cons.
    change (b :: l1 ++ p :: l2) with ((b :: l1) ++ p :: l2).
    change (b :: l1 ++ [p]) with ((b :: l1) ++ [p]).
    rewrite IH. apply add_assoc.
Qed.

Lemma contribution_same (p : option Location) :
  has_coordinates p = true -> contribution p p = Num 0.
Proof.
intros Hp. unfold contribution.
destruct (usable p && usable p); [| reflexivity].
rewrite segment_haversine by exact Hp.
unfold between. rewrite haversine_meridian by lra. f_equal. lra.
Qed.



End DistanceFacts.

(** ** Prices: services, totals and the range *)

Section PriceFacts.

Import JS BookingSummary BookingView PricingSpec Sample.

Lemma round_half_expand_le (x y : R) :
  x <= y -> (round_half_expand x <= round_half_expand y)%Z.
Proof.
intros H. unfold round_half_expand.
destruct (Rle_dec 0 x), (Rle_dec 0 y); try lra.
- apply Zfloor_le. lra.
- transitivity 0%Z.
  + rewrite <- (ZfloorZ 0). unfold Zceil.
    assert (Zfloor (IZR 0) <= Zfloor (- (x - / 2)))%Z by (apply Zfloor_le; lra).
    rewrite ZfloorZ in *. lia.
  + apply Zfloor_lub. lra.
- apply Zceil_le. lra.
Qed.

Lemma rate_nonneg (c : Currency) : In c currencies -> 0 <= rate c.
Proof.
intros [<- | [<- | [<- | [<- | []]]]]; unfold EUR, USD, GBP, CHF; cbn [rate];
  lra.
Qed.

Lemma formatPrice_le (c : Currency) (x y : R) :
  In c currencies -> x <= y ->
  (fmt_units (formatPrice x c) <= fmt_units (formatPrice y c))%Z.
Proof.
intros Hc Hxy. unfold formatPrice. cbn [fmt_units].
apply round_half_expand_le. pose proof (rate_nonneg c Hc). nra.
Qed.

Lemma cost_bounds (s : Services) : 0 <= getAdditionalServicesCost s <= 950.
Proof.
unfold getAdditionalServicesCost.
unfold SERVICE_PRICES.airportTransfer, SERVICE_PRICES.catering,
  SERVICE_PRICES.concierge, SERVICE_PRICES.hotelBooking.
destruct s as [[] [] [] []]; cbn; lra.
Qed.


(** X6: ticking a service flips that service only: its price is added
    to the cost of the services, or taken off when it is unticked; each
    other service keeps its selection and nothing else of the state
    changes; ticking twice restores the selection. *)
Theorem toggle_changes_cost (service : ServiceName) (st : State) :
  let st' := fst (handleServiceToggle service st) in
  additionalServicesCost st'
  = (if is_selected (selectedServices st) service
     then additionalServicesCost st - service_price service
     else additionalServicesCost st + service_price service)
  /\ is_selected (selectedServices st') service
     = negb (is_selected (selectedServices st) service)
  /\ (forall other, other <> service ->
      is_selected (selectedServices st') other
      = is_selected (selectedServices st) other)
  /\ st' = setSelectedServices (selectedServices st') st
  /\ snd (handleServiceToggle service st) = []
  /\ fst (handleServiceToggle service st') = st.
Proof.
destruct st as [sc cur dd cs ts [a c k h] ci].
unfold additionalServicesCost, getAdditionalServicesCost, service_price.
unfold SERVICE_PRICES.airportTransfer, SERVICE_PRICES.catering,
  SERVICE_PRICES.concierge, SERVICE_PRICES.hotelBooking.
destruct service, a, c, k, h; cbn;
  (split; [lra |]; split; [reflexivity |]; split;
   [intros [] H; (reflexivity || contradiction) | repeat split]).
Qed.



End PriceFacts.

(** ** Cities and airport codes ([formatLocation]) *)

Section LocationFacts.

Import Ascii Text BookingView.

Lemma trimStart_eq (s : string) :
  trimStart s
  = match s with
    | String a r1 =>
        if white1 a then trimStart r1
        else
          match r1 with
          | String b r2 =>
              if white2 a b then trimStart r2
              else
                match r2 with
                | String c r3 => if white3 a b c then trimStart r3 else s
                | EmptyString => s
                end
          | EmptyString => s
          end
    | EmptyString => s
    end.
Proof. destruct s; reflexivity. Qed.

Lemma trimStart_strip (s : string) :
  trimStart s = match strip s with Some r => trimStart r | None => s end.
Proof.
rewrite trimStart_eq. unfold strip.
destruct s as [| a [| b [| c r]]];
  repeat match goal with
  | |- context [if ?b then _ else _] => destruct b
  end; reflexivity.
Qed.

Lemma strip_length (s r : string) :
  strip s = Some r -> (String.length r < String.length s)%nat.
Proof.
destruct s as [| a [| b [| c t]]]; cbn [strip];
  repeat match goal with
  | |- context [if ?b then _ else _] => destruct b
  end; intros H; try discriminate H; injection H as <-; simpl; lia.
Qed.

Lemma trimStart_rec (P : string -> string -> Prop) :
  (forall s, strip s = None -> P s s) ->
  (forall s r, strip s = Some r -> P r (trimStart r) -> P s (trimStart r)) ->
  forall s, P s (trimStart s).
Proof.
intros Hnone Hsome s.
remember (String.length s) as n eqn:Hn.
revert s Hn. induction n as [n IH] using lt_wf_ind. intros s Hn.
rewrite trimStart_strip. destruct (strip s) as [r |] eqn:Hs.
- apply Hsome; [exact Hs |]. apply (IH (String.length r)); [| reflexivity].
  subst n. apply strip_length, Hs.
- apply Hnone, Hs.
Qed.

Lemma strip_trimStart (s : string) : strip (trimStart s) = None.
Proof. apply (trimStart_rec (fun _ t => strip t = None)); auto. Qed.

Lemma trimStart_idem (s : string) : trimStart (trimStart s) = trimStart s.
Proof. rewrite (trimStart_strip (trimStart s)), strip_trimStart. reflexivity. Qed.

Lemma trimStart_length (s : string) :
  (String.length (trimStart s) <= String.length s)%nat.
Proof.
apply (trimStart_rec (fun s t => (String.length t <= String.length s)%nat)).
- intros; lia.
- intros s0 r Hs H. apply strip_length in Hs. lia.
Qed.

Lemma strip_occurs (c : ascii) (s r : string) :
  strip s = Some r -> occurs c s = false -> occurs c r = false.
Proof.
intros Hs H.
destruct s as [| a [| b [| d t]]]; cbn [strip] in Hs; cbn [occurs] in H;
  repeat match type of Hs with
  | context [if ?b then _ else _] => destruct b
  end; try discriminate Hs; injection Hs as <-;
  repeat match goal with
  | Hx : _ || _ = false |- _ => apply orb_false_elim in Hx; destruct Hx
  end; cbn [occurs];
  repeat match goal with
  | Hx : ?l = false |- context [?l] => rewrite Hx
  end; reflexivity.
Qed.

Lemma occurs_trimStart (c : ascii) (s : string) :
  occurs c s = false -> occurs c (trimStart s) = false.
Proof.
apply (trimStart_rec (fun s t => occurs c s = false -> occurs c t = false)).
- auto.
- intros s0 r Hs IH H. apply IH, (strip_occurs c s0 r Hs H).
Qed.

Lemma trimStart_fixed (s : string) : trimStart s = s -> strip s = None.
Proof.
intros H. destruct (strip s) as [r |] eqn:Hs; [| reflexivity].
exfalso. rewrite trimStart_strip, Hs in H.
pose proof (trimStart_length r) as H1. apply strip_length in Hs.
rewrite H in H1. lia.
Qed.

Lemma strip_none_fixed (s : string) : strip s = None -> trimStart s = s.
Proof. intros H. rewrite trimStart_strip, H. reflexivity. Qed.

Lemma trimEnd_length (s : string) :
  (String.length (trimEnd s) <= String.length s)%nat.
Proof.
induction s as [| a s IH]; [simpl; lia |].
cbn [trimEnd]. destruct (all_white (String a s)); simpl in *; lia.
Qed.

Lemma occurs_trimEnd (c : ascii) (s : string) :
  occurs c s = false -> occurs c (trimEnd s) = false.
Proof.
induction s as [| a s IH]; [reflexivity |].
cbn [trimEnd occurs]. intros H. apply orb_false_elim in H as [Ha Hs].
destruct (all_white (String a s)); [reflexivity |].
cbn [occurs]. rewrite Ha, (IH Hs). reflexivity.
Qed.

Lemma strip_app (s r w : string) :
  strip s = Some r -> strip (s ++ w)%string = Some (r ++ w)%string.
Proof.
destruct s as [| a [| b [| c t]]]; cbn [strip String.append];
  try discriminate.
- destruct (white1 a); [| discriminate]. intros H; injection H as <-.
  reflexivity.
- destruct (white1 a); [intros H; injection H as <-; reflexivity |].
  destruct (white2 a b); [| discriminate]. intros H; injection H as <-.
  reflexivity.
- destruct (white1 a); [intros H; injection H as <-; reflexivity |].
  destruct (white2 a b); [intros H; injection H as <-; reflexivity |].
  destruct (white3 a b c); [| discriminate]. intros H; injection H as <-.
  reflexivity.
Qed.

Lemma is_empty_true (s : string) : is_empty s = true -> s = "".
Proof. destruct s; [reflexivity | discriminate]. Qed.

Lemma all_white_app (s w : string) :
  all_white s = true -> all_white w = true -> all_white (s ++ w)%string = true.
Proof.
unfold all_white. intros Hs Hw. revert Hs.
apply (trimStart_rec (fun s t => is_empty t = true ->
         is_empty (trimStart (s ++ w)%string) = true)).
- intros s0 _ H. apply is_empty_true in H. subst s0. exact Hw.
- intros s0 r Hstrip IH H. rewrite trimStart_strip, (strip_app _ _ w Hstrip).
  apply IH, H.
Qed.

Lemma trimEnd_split (s : string) :
  exists w, s = (trimEnd s ++ w)%string /\ all_white w = true.
Proof.
induction s as [| a s [w [Hs Hw]]]; [exists ""; split; reflexivity |].
cbn [trimEnd]. destruct (all_white (String a s)) eqn:He.
- exists (String a s). split; [reflexivity | exact He].
- exists w. split; [| exact Hw]. cbn [String.append]. rewrite <- Hs.
  reflexivity.
Qed.

Lemma strip_prefix (s w : string) :
  strip (s ++ w)%string = None -> strip s = None.
Proof.
intros H. destruct (strip s) as [r |] eqn:Hs; [| reflexivity].
rewrite (strip_app _ _ w Hs) in H. discriminate H.
Qed.

Lemma trimStart_trimEnd (s : string) :
  trimStart s = s -> trimStart (trimEnd s) = trimEnd s.
Proof.
intros H. apply trimStart_fixed in H. apply strip_none_fixed.
destruct (trimEnd_split s) as [w [Hs _]]. rewrite Hs in H.
apply (strip_prefix _ _ H).
Qed.

Lemma trimEnd_idem (s : string) : trimEnd (trimEnd s) = trimEnd s.
Proof.
induction s as [| a s IH]; [reflexivity |].
cbn [trimEnd]. destruct (all_white (String a s)) eqn:He; [reflexivity |].
cbn [trimEnd]. rewrite IH.
destruct (all_white (String a (trimEnd s))) eqn:He'; [| reflexivity].
exfalso. destruct (trimEnd_split s) as [w [Hs Hw]].
pose proof (all_white_app (String a (trimEnd s)) w He' Hw) as H.
cbn [String.append] in H. rewrite <- Hs in H.
rewrite H in He. discriminate He.
Qed.

Lemma trim_idem (s : string) : trim (trim s) = trim s.
Proof.
unfold trim. rewrite (trimStart_trimEnd _ (trimStart_idem s)).
apply trimEnd_idem.
Qed.

Lemma trimmed_start (s : string) : trim s = s -> trimStart s = s.
Proof.
intros H. apply strip_none_fixed.
destruct (strip s) as [r |] eqn:Hs; [| reflexivity].
exfalso. unfold trim in H. rewrite trimStart_strip, Hs in H.
pose proof (trimEnd_length (trimStart r)) as H1.
pose proof (trimStart_length r) as H2. apply strip_length in Hs.
rewrite H in H1. lia.
Qed.

Lemma trimmed_end (s : string) : trim s = s -> trimEnd s = s.
Proof.
intros H. pose proof (trimmed_start s H) as Hs.
unfold trim in H. rewrite Hs in H. exact H.
Qed.

Lemma white2_space (a : ascii) : white2 a " " = false.
Proof. unfold white2. apply andb_false_r. Qed.

Lemma white3_space (a b : ascii) : white3 a b " " = false.
Proof.
unfold white3. cbv zeta.
change (nat_of_ascii " ") with 32%nat.
cbn [Nat.eqb Nat.leb].
rewrite ?andb_false_r, ?orb_false_r. reflexivity.
Qed.

Lemma strip_app_space (s : string) :
  s <> "" ->
  strip (s ++ " ")%string = option_map (fun r => (r ++ " ")%string) (strip s).
Proof.
intros Hs. destruct s as [| a [| b [| c t]]]; [contradiction | | |];
  cbn [strip String.append option_map].
- destruct (white1 a); [reflexivity |]. rewrite white2_space. reflexivity.
- destruct (white1 a); [reflexivity |].
  destruct (white2 a b); [reflexivity |]. rewrite white3_space. reflexivity.
- destruct (white1 a); [reflexivity |].
  destruct (white2 a b); [reflexivity |].
  destruct (white3 a b c); reflexivity.
Qed.

Lemma all_white_space (s : string) :
  all_white (s ++ " ")%string = all_white s.
Proof.
unfold all_white.
apply (trimStart_rec (fun s t =>
         is_empty (trimStart (s ++ " ")%string) = is_empty t)).
- intros s0 Hnone. destruct s0 as [| a s0]; [reflexivity |].
  rewrite trimStart_strip, strip_app_space by discriminate.
  rewrite Hnone. reflexivity.
- intros s0 r Hsome IH.
  assert (s0 <> "") as Hne by (intros ->; discriminate Hsome).
  rewrite trimStart_strip, (strip_app_space _ Hne), Hsome. exact IH.
Qed.

Lemma trimEnd_space (s : string) : trimEnd (s ++ " ")%string = trimEnd s.
Proof.
induction s as [| a s IH]; [reflexivity |].
cbn [String.append trimEnd].
change (String a (s ++ " ")%string) with ((String a s) ++ " ")%string.
rewrite (all_white_space (String a s)), IH. reflexivity.
Qed.

Lemma trim_space (s : string) : trim s = s -> trim (s ++ " ")%string = s.
Proof.
intros H. pose proof (trimmed_start s H) as Hs.
pose proof (trimmed_end s H) as He.
destruct s as [| a s]; [reflexivity |].
unfold trim. apply trimStart_fixed in Hs.
rewrite (trimStart_strip (_ ++ _)%string), strip_app_space by discriminate.
rewrite Hs. cbn [option_map]. rewrite trimEnd_space. exact He.
Qed.

Lemma occurs_append (c : ascii) (a b : string) :
  occurs c (a ++ b)%string = occurs c a || occurs c b.
Proof.
induction a as [| d a IH]; [reflexivity |].
cbn [String.append occurs]. rewrite IH, orb_assoc. reflexivity.
Qed.

Lemma split_none (sep : ascii) (s : string) :
  occurs sep s = false -> split sep s = [s].
Proof.
induction s as [| d s IH]; [reflexivity |].
cbn [occurs split]. intros H. apply orb_false_elim in H as [Hd Hs].
rewrite Hd, (IH Hs). reflexivity.
Qed.

Lemma split_first (sep : ascii) (a b : string) :
  occurs sep a = false ->
  split sep (a ++ String sep b)%string = a :: split sep b.
Proof.
induction a as [| d a IH]; intros H.
- cbn [String.append split]. rewrite Ascii.eqb_refl. reflexivity.
- cbn [occurs] in H. apply orb_false_elim in H as [Hd Ha].
  cbn [String.append split]. rewrite Hd, (IH Ha). reflexivity.
Qed.

Lemma remove_first_none (c : ascii) (s : string) :
  occurs c s = false -> remove_first c s = s.
Proof.
induction s as [| d s IH]; [reflexivity |].
cbn [occurs remove_first]. intros H. apply orb_false_elim in H as [Hd Hs].
rewrite Hd, (IH Hs). reflexivity.
Qed.

Lemma remove_first_append (c : ascii) (a b : string) :
  occurs c a = false ->
  remove_first c (a ++ String c b)%string = (a ++ b)%string.
Proof.
induction a as [| d a IH]; intros H.
- cbn [String.append remove_first]. rewrite Ascii.eqb_refl. reflexivity.
- cbn [occurs] in H. apply orb_false_elim in H as [Hd Ha].
  cbn [String.append remove_first]. rewrite Hd, (IH Ha). reflexivity.
Qed.

Lemma append_empty (s : string) : (s ++ "")%string = s.
Proof. induction s as [| c s IH]; [reflexivity | cbn; rewrite IH; reflexivity]. Qed.

Lemma nonempty_append (a : string) (c : ascii) (b : string) :
  nonempty (a ++ String c b)%string = true.
Proof. destruct a; reflexivity. Qed.

(** X8: an address written [City (CODE)] is taken apart into the city
    and the code, whenever the city has no parenthesis and no white
    space around it and the code has no parenthesis. *)
Theorem formatLocation_city_code (cityName code : string) (la lo : option R) :
  occurs "(" cityName = false -> trim cityName = cityName ->
  occurs "(" code = false -> occurs ")" code = false ->
  formatLocation
    (Some (mkLocation (cityName ++ " (" ++ code ++ ")")%string la lo))
  = mkCityCode cityName code.
Proof.
intros Hcity Htrim Hopen Hclose.
unfold formatLocation. cbn [address].
change (cityName ++ " (" ++ code ++ ")")%string
  with (cityName ++ String " " (String "(" (code ++ String ")" "")))%string.
rewrite nonempty_append. cbn [negb].
replace (cityName ++ String " " (String "(" (code ++ String ")" "")))%string
  with ((cityName ++ String " " "") ++ String "(" (code ++ String ")" ""))%string.
2:{ clear. induction cityName as [| c s IH]; [reflexivity |].
    cbn [String.append]. rewrite IH. reflexivity. }
rewrite split_first
  by (rewrite occurs_append, Hcity; reflexivity).
rewrite split_none
  by (rewrite occurs_append, Hopen; reflexivity).
cbv zeta. cbn [nth nth_error].
rewrite trim_space by exact Htrim.
rewrite (remove_first_append _ _ _ Hclose), append_empty. reflexivity.
Qed.

Lemma formatLocation_city_code_witness :
  formatLocation (Some (mkLocation "Paris (CDG)" (Some 49.0097) (Some 2.5479)))
  = mkCityCode "Paris" "CDG".
Proof.
apply (formatLocation_city_code "Paris" "CDG"); reflexivity.
Defined.

Lemma split_parts (sep : ascii) (s : string) :
  Forall (fun part => occurs sep part = false) (split sep s).
Proof.
induction s as [| d s IH]; [repeat constructor |].
cbn [split]. destruct (Ascii.eqb d sep) eqn:Hd.
- constructor; [reflexivity | exact IH].
- destruct (split sep s) as [| part parts].
  + repeat constructor. cbn [occurs]. rewrite Hd. reflexivity.
  + inversion IH as [| ? ? Hpart Hparts]; subst.
    constructor; [| exact Hparts]. cbn [occurs]. rewrite Hd. exact Hpart.
Qed.

Lemma occurs_remove_first (c d : ascii) (s : string) :
  occurs c s = false -> occurs c (remove_first d s) = false.
Proof.
induction s as [| e s IH]; [reflexivity |].
cbn [occurs remove_first]. intros H. apply orb_false_elim in H as [He Hs].
destruct (Ascii.eqb e d); [exact Hs |].
cbn [occurs]. rewrite He, (IH Hs). reflexivity.
Qed.

(** X9: for every location the city has no white space around it and
    neither the city nor the code holds an opening parenthesis; a
    location that is absent or has an empty address gives an empty city
    and code, and an address without parenthesis is, trimmed, the city,
    with an empty code. *)
Theorem formatLocation_shape (location : option Location) :
  let shown := formatLocation location in
  trim (city shown) = city shown
  /\ occurs "(" (city shown) = false
  /\ occurs "(" (airport shown) = false
  /\ (opt_address_empty location = true -> shown = mkCityCode "" "")
  /\ (forall l, location = Some l -> occurs "(" (address l) = false ->
      shown = mkCityCode (trim (address l)) "").
Proof.
cbv zeta. unfold formatLocation, opt_address_empty.
destruct location as [l |]; [| repeat split; try reflexivity; discriminate].
destruct (nonempty (address l)) eqn:Hne; cbn [negb].
2:{ repeat split; try reflexivity. intros l' Hl Ho. injection Hl as <-.
    apply nonempty_false in Hne. rewrite Hne. reflexivity. }
pose proof (split_parts "(" (address l)) as Hparts.
cbv zeta. cbn [city airport].
split; [apply trim_idem |].
split.
{ unfold trim. apply occurs_trimEnd, occurs_trimStart.
  destruct (split "(" (address l)) as [| part parts]; [reflexivity |].
  inversion Hparts; assumption. }
split.
{ destruct (split "(" (address l)) as [| part [| part' parts]];
    try reflexivity.
  inversion Hparts as [| ? ? _ Hrest]; subst.
  inversion Hrest; subst. cbn [nth_error].
  apply occurs_remove_first. assumption. }
split; [discriminate |].
intros l' Hl Ho. injection Hl as <-.
rewrite (split_none _ _ Ho). reflexivity.
Qed.

End LocationFacts.

(** ** The wizard as rendered, and the checkout form it opens *)

Section WizardFacts.

Import BookingSummary BookingView CheckoutCalls Scenario Sample.

Lemma ui_invariant (p : Props) (st : State) :
  BookingView.ui_reachable p st ->
  (1 <= currentStep st <= totalSteps st)%Z
  /\ totalSteps st = booking_steps p
  /\ (currentStep st = 4%Z -> contact_filled (contactInfo st) = true)
  /\ (showCheckout st = true -> contact_filled (contactInfo st) = true).
Proof.
induction 1 as [| st ev _ (Hrange & Htotal & Hfour & Hshown)].
- unfold mount, totalSteps_effect, booking_steps.
  cbn [currentStep totalSteps setTotalSteps initial showCheckout].
  destruct (0 <? List.length (stops p))%nat;
    (repeat split; try lia; discriminate).
- assert (3 <= totalSteps st <= 4)%Z as Hsteps.
  { rewrite Htotal. unfold booking_steps.
    destruct (0 <? List.length (stops p))%nat; lia. }
  assert (isFormValid st = true -> currentStep st = 3%Z ->
          contact_filled (contactInfo st) = true) as Hvalid.
  { intros Hv H3. unfold isFormValid in Hv. rewrite H3 in Hv. exact Hv. }
  destruct ev; cbn [ui_handle];
    unfold nextStep, prevStep, handleRequestQuote, handleServiceToggle,
      handleContactInfoChange;
    repeat match goal with
    | |- context [if showCheckout ?s then _ else _] =>
        destruct (showCheckout s) eqn:?
    | |- context [(?a <? ?b)%Z] => destruct (Z.ltb_spec a b)
    | |- context [(?a =? ?b)%Z] => destruct (Z.eqb_spec a b)
    | |- context [(?a >? ?b)%Z] =>
        rewrite (Z.gtb_ltb a b); destruct (Z.ltb_spec b a)
    | |- context [isFormValid ?s] => destruct (isFormValid s) eqn:?
    | |- context [showCurrencyDropdown ?s] =>
        destruct (showCurrencyDropdown s) eqn:?
    | |- context [nth_error ?l ?i] => destruct (nth_error l i)
    end;
    cbn [fst andb negb currentStep totalSteps showCheckout contactInfo
         setCurrentStep setShowCheckout setSelectedCurrency
         setShowCurrencyDropdown setSelectedServices setContactInfo];
    (split; [lia |]); (split; [assumption |]);
    (split; [intros H4 | intros Hs]);
    try lia; try congruence;
    try (apply Hfour; lia);
    try (apply Hshown; congruence);
    try (apply Hvalid; [reflexivity | lia]);
    try (destruct (Z.eq_dec (currentStep st) 4) as [H4' | H4'];
         [apply Hfour; exact H4' | apply Hvalid; [reflexivity | lia]]).
Qed.

Lemma view_reachable_run (p : Props) (evs : list UiEvent) (st : State) :
  BookingView.ui_reachable p st -> BookingView.ui_reachable p (ui_run st evs).
Proof.
revert st. induction evs as [| ev evs IH]; intros st Hst; [exact Hst |].
unfold ui_run. cbn [fold_left]. apply IH, ui_step, Hst.
Qed.

Lemma contact_filled_fields (c : ContactInfo) :
  contact_filled c = true ->
  nonempty (name c) = true /\ nonempty (email c) = true
  /\ nonempty (phone c) = true.
Proof.
unfold contact_filled. intros H.
apply andb_true_iff in H as [H Hp]. apply andb_true_iff in H as [Hn He].
auto.
Qed.

(** X10: on the rendered wizard the checkout form is only shown with
    name, email and phone filled in. *)
Theorem quote_needs_contact (p : Props) (st : State) :
  BookingView.ui_reachable p st -> showCheckout st = true ->
  name (contactInfo st) <> "" /\ email (contactInfo st) <> ""
  /\ phone (contactInfo st) <> "".
Proof.
intros Hreach Hshown.
destruct (ui_invariant p st Hreach) as (_ & _ & _ & Hfilled).
destruct (contact_filled_fields _ (Hfilled Hshown)) as (Hn & He & Hp).
repeat split; apply nonempty_true; assumption.
Qed.

Lemma quote_needs_contact_witness :
  let st := ui_run (mount flight_1000) book_direct_flight in
  name (contactInfo st) <> "" /\ email (contactInfo st) <> ""
  /\ phone (contactInfo st) <> "".
Proof.
apply (quote_needs_contact flight_1000).
- apply view_reachable_run, ui_mount.
- reflexivity.
Defined.

Lemma or_else_filled (s d : string) :
  nonempty s = true -> CheckoutForm.or_else (Some s) d = s.
Proof. intros H. unfold CheckoutForm.or_else. rewrite H. reflexivity. Qed.

Lemma or_else_empty (s : string) : CheckoutForm.or_else (Some s) "" = s.
Proof.
unfold CheckoutForm.or_else. destruct (nonempty s) eqn:H; [reflexivity |].
apply nonempty_false in H. congruence.
Qed.

(** X11: the checkout form the wizard opens starts with the contact
    details, the special requests and the services of the wizard and
    with its total price, and its first step is valid at once: the next
    button leads to the confirmation. *)
Theorem opened_form_is_filled (p : Props) (st : State)
  (now : string) (user_name user_email : option string) :
  BookingView.ui_reachable p st -> showCheckout st = true ->
  let cp := checkoutProps now user_name user_email p st in
  let form := CheckoutForm.initial cp in
  CheckoutForm.formData form
  = CheckoutForm.mkFormData (name (contactInfo st)) (email (contactInfo st))
      (phone (contactInfo st)) (specialRequests (contactInfo st))
      (selectedServices st)
  /\ CheckoutForm.price cp = totalPrice p st
  /\ CheckoutForm.currency cp = code (selectedCurrency st)
  /\ CheckoutForm.handle cp form CheckoutForm.ClickNext
     = (CheckoutForm.setCurrentStep 2 form, []).
Proof.
intros Hreach Hshown cp form.
destruct (ui_invariant p st Hreach) as (_ & _ & _ & Hfilled).
destruct (contact_filled_fields _ (Hfilled Hshown)) as (Hn & He & Hp).
assert (CheckoutForm.formData form
        = CheckoutForm.mkFormData (name (contactInfo st))
            (email (contactInfo st)) (phone (contactInfo st))
            (specialRequests (contactInfo st)) (selectedServices st)) as Hdata.
{ unfold form, cp, CheckoutForm.initial, checkoutProps.
  cbn [CheckoutForm.userInfo CheckoutForm.formData option_map
       CheckoutForm.ui_name CheckoutForm.ui_email CheckoutForm.ui_phone
       CheckoutForm.ui_specialRequests CheckoutForm.user_name
       CheckoutForm.user_email].
  rewrite !or_else_filled by assumption. rewrite or_else_empty.
  reflexivity. }
split; [exact Hdata |]. split; [reflexivity |]. split; [reflexivity |].
cbn [CheckoutForm.handle].
change (CheckoutForm.success form) with false. cbv iota.
unfold CheckoutForm.next_disabled, CheckoutForm.isFormValid.
change (CheckoutForm.loading form) with false.
change (CheckoutForm.currentStep form) with 1%Z.
cbn [Z.eqb Pos.eqb orb]. rewrite Hdata.
cbn [CheckoutForm.name CheckoutForm.email CheckoutForm.phone].
rewrite Hn, He, Hp. cbn [andb negb].
unfold CheckoutForm.nextStep.
change (CheckoutForm.currentStep form) with 1%Z. reflexivity.
Qed.

Lemma opened_form_is_filled_witness :
  let st := ui_run (mount flight_1000) book_direct_flight in
  let cp := checkoutProps "1700000000000" None None flight_1000 st in
  CheckoutForm.handle cp (CheckoutForm.initial cp) CheckoutForm.ClickNext
  = (CheckoutForm.setCurrentStep 2 (CheckoutForm.initial cp), []).
Proof.
apply (opened_form_is_filled flight_1000
         (ui_run (mount flight_1000) book_direct_flight)
         "1700000000000" None None).
- apply view_reachable_run, ui_mount.
- reflexivity.
Defined.

End WizardFacts.

(** ** The checkout form: submissions and their answers *)

Section CheckoutFacts.

Import CheckoutForm CheckoutSpec CheckoutCalls Scenario Sample.

(** The calls of [handlePayment]: one submission when the required
    fields are filled, none otherwise. *)
Lemma handlePayment_calls (p : Props) (st : State) :
  snd (handlePayment p st)
  = if required_filled (formData st) then [submission p (formData st)] else [].
Proof.
unfold handlePayment, required_filled, submission, uses_hosted_session,
  startsWith.
cbn [formData setError setLoading].
destruct (nonempty (name (formData st))), (nonempty (email (formData st))),
  (nonempty (phone (formData st))); cbn [negb orb andb]; try reflexivity.
destruct (String.eqb (offerType p) "fixed_offer"
          && negb (String.prefix "custom-" (offerId p))); [reflexivity |].
cbn [orb]. destruct (String.eqb (offerType p) "empty_leg"); reflexivity.
Qed.

Lemma handlePayment_state (p : Props) (st : State) :
  required_filled (formData st) = true ->
  fst (handlePayment p st)
  = mkState true None (success st) (currentStep st) (formData st)
      (Some (if uses_hosted_session (offerType p) (offerId p)
             then AwaitCheckout else AwaitRequest)).
Proof.
unfold handlePayment, required_filled, uses_hosted_session, startsWith.
cbn [formData setError setLoading].
intros H. apply andb_true_iff in H as [H Hp].
apply andb_true_iff in H as [Hn He]. rewrite Hn, He, Hp. cbn [negb orb].
destruct (String.eqb (offerType p) "fixed_offer"
          && negb (String.prefix "custom-" (offerId p))); [reflexivity |].
cbn [orb]. destruct (String.eqb (offerType p) "empty_leg"); reflexivity.
Qed.

Lemma handlePayment_invalid (p : Props) (st : State) :
  required_filled (formData st) = false ->
  fst (handlePayment p st)
  = mkState false (Some "Please fill in all required fields") (success st)
      (currentStep st) (formData st) (pending st).
Proof.
unfold handlePayment, required_filled.
cbn [formData setError setLoading].
intros H.
destruct (nonempty (name (formData st))), (nonempty (email (formData st))),
  (nonempty (phone (formData st))); try discriminate H; reflexivity.
Qed.

Lemma form_invariant_holds (p : Props) (st : State) :
  ui_reachable p st -> form_invariant p st.
Proof.
induction 1 as [| st ev _ Hinv Hev].
- repeat split; try discriminate.
- pose proof Hinv as (Hload & Hpend & Hsucc).
  destruct ev; try discriminate Hev; cbn [handle].
  + (* ClickNext *)
    destruct (success st) eqn:Hs; [exact Hinv |].
    destruct (next_disabled st) eqn:Hdis; [exact Hinv |].
    unfold next_disabled in Hdis. apply orb_false_elim in Hdis as [Hl _].
    assert (pending st = None) as Hnone.
    { rewrite Hl in Hload. destruct (pending st); [discriminate | reflexivity]. }
    unfold nextStep. destruct (currentStep st <? 2)%Z.
    * exact Hinv.
    * destruct (required_filled (formData st)) eqn:Hf.
      -- rewrite (handlePayment_state _ _ Hf). unfold form_invariant.
         cbn [fst loading pending error success].
         rewrite Hs.
         split; [reflexivity |]. split; [| intros H; discriminate H].
         intros a Ha. injection Ha as <-. auto.
      -- rewrite (handlePayment_invalid _ _ Hf). unfold form_invariant.
         cbn [fst loading pending error success]. rewrite Hnone, Hs.
         split; [reflexivity |]. split; [| intros H; discriminate H].
         intros a Ha. discriminate Ha.
  + (* ClickBack *)
    destruct (success st); [exact Hinv |].
    unfold prevStep. destruct (currentStep st >? 1)%Z; exact Hinv.
  + (* ClickClose *)
    destruct (success st); exact Hinv.
  + (* Input *)
    destruct (success st); [exact Hinv |].
    destruct (currentStep st =? 1)%Z; exact Hinv.
  + (* Settle *)
    unfold handlePayment_resume.
    destruct (pending st) as [a |] eqn:Hp; [| exact Hinv].
    destruct (Hpend a eq_refl) as (Hkind & Herr & Hs).
    assert (a = AwaitRequest ->
            uses_hosted_session (offerType p) (offerId p) = false) as Hreq.
    { intros ->. unfold awaited_kind in Hkind.
      destruct (uses_hosted_session (offerType p) (offerId p));
        [discriminate | reflexivity]. }
    assert (forall e, form_invariant p (finally (setError e st))) as Hcatch.
    { intros e. unfold form_invariant. cbn.
      split; [reflexivity |]. split; [intros ? H; discriminate H |].
      rewrite Hs. intros H; discriminate H. }
    assert (form_invariant p (finally st)) as Hfinally.
    { unfold form_invariant. cbn.
      split; [reflexivity |]. split; [intros ? H; discriminate H |].
      rewrite Hs. intros H; discriminate H. }
    destruct a, r as [m | e | b e]; unfold catch; cbn [fst];
      try apply Hcatch; try exact Hinv;
      destruct (truthy_error e); cbn [fst];
      try apply Hcatch; try exact Hfinally.
    destruct b; cbn [fst]; [| exact Hfinally].
    unfold form_invariant. cbn.
    split; [reflexivity |]. split; [intros ? H; discriminate H |].
    intros _. apply Hreq. reflexivity.
Qed.

(** X12: a booking made through the wizard is always sent as a quote
    request: the checkout form it opens never asks for a payment
    session, in any state and for any event, and a submission from its
    confirmation step sends one quote request for the offer
    [custom-...] of kind [fixed_offer]. *)
Theorem wizard_sends_quote_requests
  (now : string) (user_name user_email : option string)
  (bp : BookingSummary.Props) (bst : BookingSummary.State) :
  let p := BookingView.checkoutProps now user_name user_email bp bst in
  (forall st ev c, In c (snd (handle p st ev)) -> is_session_start c = false)
  /\ (forall st,
        ui_reachable p st -> currentStep st = 2%Z ->
        loading st = false -> success st = false ->
        snd (handle p st ClickNext)
        = [sendPaymentRequest (String.append "custom-" now) "fixed_offer"
             (email (formData st)) (formData st)]).
Proof.
intros p.
assert (uses_hosted_session (offerType p) (offerId p) = false) as Hquote.
{ unfold p, BookingView.checkoutProps, uses_hosted_session.
  cbn [offerType offerId]. destruct now; reflexivity. }
assert (forall st c, In c (snd (handlePayment p st)) ->
        is_session_start c = false) as Hpay.
{ intros st c. rewrite handlePayment_calls.
  destruct (required_filled (formData st)); [| intros []].
  unfold submission. rewrite Hquote. intros [<- | []]. reflexivity. }
split.
- intros st ev c. destruct ev; cbn [handle];
    unfold nextStep, prevStep, handleInputChange, handlePayment_resume, catch;
    repeat match goal with
    | |- context [if success ?s then _ else _] => destruct (success s)
    | |- context [if next_disabled ?s then _ else _] =>
        destruct (next_disabled s)
    | |- context [(?a <? ?b)%Z] => destruct (a <? b)%Z
    | |- context [(?a =? ?b)%Z] => destruct (a =? b)%Z
    | |- context [(?a >? ?b)%Z] => destruct (a >? b)%Z
    | |- context [match pending ?s with _ => _ end] => destruct (pending s) as [[] |]
    | |- context [match ?r with Rejected _ => _ | _ => _ end] => destruct r
    | |- context [truthy_error ?e] => destruct (truthy_error e)
    | |- context [if has_onSuccess ?q then _ else _] => destruct (has_onSuccess q)
    | |- context [if ?b then _ else _] => destruct b
    end; cbn [snd In]; try (apply Hpay);
    intros Hin; repeat (destruct Hin as [<- | Hin]; [reflexivity |]);
    destruct Hin.
- intros st Hreach H2 Hl Hs.
  destruct (confirmation_has_contact p st Hreach) as [_ Hfilled].
  specialize (Hfilled H2).
  cbn [handle]. rewrite Hs. unfold next_disabled, isFormValid.
  rewrite Hl, H2. cbn [Z.eqb Pos.eqb negb orb].
  unfold nextStep. rewrite H2.
  cbn [Z.ltb Z.compare Pos.compare Pos.compare_cont].
  rewrite handlePayment_calls, Hfilled. unfold submission. rewrite Hquote.
  reflexivity.
Qed.

(** X13: on the rendered form the loading flag is on exactly while a
    call is awaited, and as long as it is on nothing is submitted
    again: the next button does nothing, and no event sends a payment
    session start or a quote request. *)
Theorem one_submission_in_flight (p : Props) (st : State) :
  ui_reachable p st ->
  (loading st = true <-> pending st <> None)
  /\ (loading st = true ->
      handle p st ClickNext = (st, [])
      /\ forall ev c,
           rendered ev = true -> In c (snd (handle p st ev)) ->
           is_session_start c = false /\ is_quote_request c = false).
Proof.
intros Hreach. destruct (form_invariant_holds p st Hreach) as (Hload & _ & _).
split.
- rewrite Hload. destruct (pending st); split; congruence.
- intros Hl. split.
  + cbn [handle]. unfold next_disabled. rewrite Hl.
    destruct (success st); reflexivity.
  + intros ev c Hev. destruct ev; try discriminate Hev; cbn [handle];
      unfold next_disabled, prevStep, handleInputChange,
        handlePayment_resume, catch;
      rewrite ?Hl; cbn [orb];
      repeat match goal with
      | |- context [if success ?s then _ else _] => destruct (success s)
      | |- context [(?a =? ?b)%Z] => destruct (a =? b)%Z
      | |- context [(?a >? ?b)%Z] => destruct (a >? b)%Z
      | |- context [match pending ?s with _ => _ end] =>
          destruct (pending s) as [[] |]
      | |- context [match ?r with Rejected _ => _ | _ => _ end] => destruct r
      | |- context [truthy_error ?e] => destruct (truthy_error e)
      | |- context [if has_onSuccess ?q then _ else _] =>
          destruct (has_onSuccess q)
      | |- context [if ?b then _ else _] => destruct b
      end; cbn [snd In orb];
      intros Hin; repeat (destruct Hin as [<- | Hin]; [split; reflexivity |]);
      destruct Hin.
Qed.

Lemma one_submission_in_flight_witness :
  let st := run custom_charter (initial custom_charter) back_while_loading in
  (loading st = true <-> pending st <> None)
  /\ (loading st = true ->
      handle custom_charter st ClickNext = (st, [])
      /\ forall ev c,
           rendered ev = true -> In c (snd (handle custom_charter st ev)) ->
           is_session_start c = false /\ is_quote_request c = false).
Proof.
apply (one_submission_in_flight custom_charter).
apply ui_reachable_run; [apply ui_initial | reflexivity].
Defined.

(** X14: the success panel is final and belongs to quote requests: on
    the rendered form it is never shown for an offer that starts a
    payment session, and once it is shown no event changes the state;
    its close button calls [onClose]. *)
Theorem success_is_final (p : Props) (st : State) :
  ui_reachable p st -> success st = true ->
  uses_hosted_session (offerType p) (offerId p) = false
  /\ loading st = false
  /\ (forall ev, rendered ev = true -> fst (handle p st ev) = st)
  /\ handle p st ClickClose = (st, [onClose]).
Proof.
intros Hreach Hs.
destruct (form_invariant_holds p st Hreach) as (Hload & Hpend & Hsucc).
assert (pending st = None) as Hnone.
{ destruct (pending st) as [a |] eqn:Hp; [| reflexivity].
  destruct (Hpend a eq_refl) as (_ & _ & Hf). congruence. }
split; [exact (Hsucc Hs) |]. split; [rewrite Hload, Hnone; reflexivity |].
split.
- intros ev Hev. destruct ev; try discriminate Hev; cbn [handle];
    rewrite ?Hs; try reflexivity.
  unfold handlePayment_resume. rewrite Hnone. reflexivity.
- cbn [handle]. rewrite Hs. reflexivity.
Qed.

Lemma success_is_final_witness :
  let st :=
    run custom_charter (initial custom_charter)
      [ClickNext; ClickNext; Settle (RequestResult true None)] in
  uses_hosted_session (offerType custom_charter) (offerId custom_charter)
  = false
  /\ loading st = false
  /\ (forall ev, rendered ev = true -> fst (handle custom_charter st ev) = st)
  /\ handle custom_charter st ClickClose = (st, [onClose]).
Proof.
apply (success_is_final custom_charter).
- apply ui_reachable_run; [apply ui_initial | reflexivity].
- reflexivity.
Defined.

(** X15: [handlePayment] itself validates the form: with name, email or
    phone empty it sends nothing, awaits nothing, turns [loading] off
    and shows the message asking to fill in the required fields. *)
Theorem empty_field_stops_payment (p : Props) (st : State) :
  name (formData st) = "" \/ email (formData st) = ""
  \/ phone (formData st) = "" ->
  handlePayment p st
  = (mkState false (Some "Please fill in all required fields") (success st)
       (currentStep st) (formData st) (pending st),
     []).
Proof.
intros H.
assert (required_filled (formData st) = false) as Hf.
{ unfold required_filled.
  destruct H as [H | [H | H]]; apply nonempty_false in H; rewrite H;
    rewrite ?andb_false_r; reflexivity. }
rewrite (surjective_pairing (handlePayment p st)).
rewrite (handlePayment_invalid _ _ Hf), handlePayment_calls, Hf. reflexivity.
Qed.

Lemma empty_field_stops_payment_witness :
  handlePayment empty_form (initial empty_form)
  = (mkState false (Some "Please fill in all required fields") false 1
       (formData (initial empty_form)) None,
     []).
Proof.
apply (empty_field_stops_payment empty_form (initial empty_form)).
left. reflexivity.
Defined.

(** The state after the awaited call was answered. *)
Lemma settle_state (p : Props) (st : State) (a : Awaited) (r : Settled) :
  ui_reachable p st -> pending st = Some a -> answers a r = true ->
  let st' := fst (handle p st (Settle r)) in
  loading st' = false /\ pending st' = None
  /\ currentStep st' = currentStep st /\ formData st' = formData st
  /\ success st' = succeeds r
  /\ error st' = (if fails r then Some (failure_message r) else None).
Proof.
intros Hreach Hp Hans.
destruct (form_invariant_holds p st Hreach) as (_ & Hpend & _).
destruct (Hpend a Hp) as (_ & Herr & Hs).
cbv zeta. cbn [handle]. unfold handlePayment_resume. rewrite Hp.
destruct a, r as [[m |] | [m |] | b [m |]]; try discriminate Hans;
  unfold catch, fails, succeeds, truthy_error, failure_message;
  try (destruct (nonempty m)); try (destruct b);
  cbn; rewrite ?Hs, ?Herr; repeat split; reflexivity.
Qed.

(** X16: when the awaited call is answered the form stops loading and
    keeps its step and its data; it shows the success panel exactly
    when a quote request succeeded without error, the message of the
    failure exactly when the call was rejected or answered with an
    error, and otherwise nothing. *)
Theorem answer_outcome (p : Props) (st : State) (a : Awaited) (r : Settled) :
  ui_reachable p st -> pending st = Some a -> answers a r = true ->
  let st' := fst (handle p st (Settle r)) in
  loading st' = false /\ pending st' = None
  /\ currentStep st' = currentStep st /\ formData st' = formData st
  /\ success st' = succeeds r
  /\ error st' = (if fails r then Some (failure_message r) else None).
Proof. apply settle_state. Qed.

Lemma answer_outcome_witness :
  let st := run custom_charter (initial custom_charter) [ClickNext; ClickNext] in
  let st' :=
    fst (handle custom_charter st (Settle (Rejected (Some "offline")))) in
  loading st' = false /\ pending st' = None
  /\ currentStep st' = currentStep st /\ formData st' = formData st
  /\ success st' = false
  /\ error st' = Some "offline".
Proof.
apply (answer_outcome custom_charter
         (run custom_charter (initial custom_charter) [ClickNext; ClickNext])
         AwaitRequest (Rejected (Some "offline"))).
- apply ui_reachable_run; [apply ui_initial | reflexivity].
- reflexivity.
- reflexivity.
Defined.

(** X17: after a failed submission the form can be sent again: from
    the confirmation step the next button sends the same call once
    more. *)
Theorem failed_submission_can_be_retried
  (p : Props) (st : State) (a : Awaited) (r : Settled) :
  ui_reachable p st -> currentStep st = 2%Z ->
  pending st = Some a -> answers a r = true -> fails r = true ->
  let st' := fst (handle p st (Settle r)) in
  snd (handle p st' ClickNext) = [submission p (formData st)]
  /\ pending (fst (handle p st' ClickNext)) = Some a.
Proof.
intros Hreach H2 Hp Hans Hfail. cbv zeta.
destruct (form_invariant_holds p st Hreach) as (_ & Hpend & _).
destruct (Hpend a Hp) as (Hkind & _ & _).
destruct (settle_state p st a r Hreach Hp Hans)
  as (Hl & _ & Hstep & Hdata & Hsucc & _).
cbv zeta in *.
set (st' := fst (handle p st (Settle r))) in *.
assert (success st' = false) as Hs.
{ rewrite Hsucc. destruct r as [? | ? | b e]; try reflexivity.
  cbn in *. rewrite Hfail. destruct b; reflexivity. }
assert (ui_reachable p st') as Hreach' by (apply ui_handle; [exact Hreach | reflexivity]).
destruct (confirmation_has_contact p st' Hreach') as [_ Hfilled].
rewrite Hstep in Hfilled. specialize (Hfilled H2).
cbn [handle]. rewrite Hs. unfold next_disabled, isFormValid.
rewrite Hl, Hstep, H2. cbn [Z.eqb Pos.eqb negb orb].
unfold nextStep. rewrite Hstep, H2.
cbn [Z.ltb Z.compare Pos.compare Pos.compare_cont].
rewrite handlePayment_calls, (handlePayment_state _ _ Hfilled), Hfilled, Hdata.
split; [reflexivity |]. cbn [pending]. rewrite Hkind. reflexivity.
Qed.

Lemma failed_submission_can_be_retried_witness :
  let st := run custom_charter (initial custom_charter) [ClickNext; ClickNext] in
  let st' :=
    fst (handle custom_charter st (Settle (Rejected (Some "offline")))) in
  snd (handle custom_charter st' ClickNext)
  = [submission custom_charter (formData st)]
  /\ pending (fst (handle custom_charter st' ClickNext)) = Some AwaitRequest.
Proof.
apply (failed_submission_can_be_retried custom_charter
         (run custom_charter (initial custom_charter) [ClickNext; ClickNext])
         AwaitRequest (Rejected (Some "offline"))).
- apply ui_reachable_run; [apply ui_initial | reflexivity].
- reflexivity.
- reflexivity.
- reflexivity.
- reflexivity.
Defined.

End CheckoutFacts.

(** ** The checkout-session route: rejections, sessions, failures *)

Section RouteFacts.

Import Route RouteFields Scenario Sample.

Lemma truthy_false_iff (v : option Json) : truthy v = false <-> falsy v.
Proof.
unfold falsy. destruct v as [[| [] | r | s |] |]; cbn [truthy].
- split; [auto | reflexivity].
- split; [discriminate |].
  intros [H | [H | [H | [H | H]]]]; discriminate H.
- split; [auto 6 | reflexivity].
- destruct (Req_dec_T r 0) as [-> | Hr].
  + split; [auto 6 | reflexivity].
  + split; [discriminate |].
    intros [H | [H | [H | [H | H]]]]; try discriminate H.
    injection H as ->. contradiction.
- split.
  + intros H. apply nonempty_false in H. subst s. auto 6.
  + intros [H | [H | [H | [H | H]]]]; try discriminate H.
    injection H as ->. reflexivity.
- split; [discriminate |].
  intros [H | [H | [H | [H | H]]]]; discriminate H.
- split; [auto | reflexivity].
Qed.

Lemma all_truthy_false_iff (body : Body) :
  all_truthy body = false
  <-> falsy (tierId body) \/ falsy (price body) \/ falsy (currency body)
      \/ falsy (name body) \/ falsy (email body).
Proof.
unfold all_truthy. rewrite <- !truthy_false_iff.
destruct (truthy (tierId body)), (truthy (price body)),
  (truthy (currency body)), (truthy (name body)), (truthy (email body));
  cbn; intuition congruence.
Qed.

Lemma POST_rejects (toLowerCase : string -> string)
  (stripe : Stripe) (body : Body) :
  all_truthy body = false ->
  POST toLowerCase stripe (Some body)
  = (json_error "Missing required parameters" 400, []).
Proof.
unfold all_truthy, POST.
destruct (truthy (tierId body)), (truthy (price body)),
  (truthy (currency body)), (truthy (name body)), (truthy (email body));
  cbn [negb orb andb]; intros H; try discriminate H; reflexivity.
Qed.

(** The handler past its guard. *)
Lemma POST_passes (toLowerCase : string -> string)
  (stripe : Stripe) (body : Body) :
  all_truthy body = true ->
  POST toLowerCase stripe (Some body)
  = let create_customer :=
      customers_create (email body) (name body) (tierId body) (tierType body) in
    match customer_id stripe with
    | None => (failed, [create_customer])
    | Some customer =>
        match currency body with
        | Some (JString c) =>
            let params :=
              mkSessionParams
                (if is_lifetime (tierId body) then payment else subscription)
                (toLowerCase c) (price body)
                (negb (is_lifetime (tierId body))) customer in
            match session_id stripe with
            | None =>
                (failed, [create_customer; checkout_sessions_create params])
            | Some id =>
                (json_session id,
                 [create_customer; checkout_sessions_create params])
            end
        | _ => (failed, [create_customer])
        end
    end.
Proof.
unfold all_truthy, POST, is_lifetime.
destruct (truthy (tierId body)), (truthy (price body)),
  (truthy (currency body)), (truthy (name body)), (truthy (email body));
  cbn [negb orb andb]; intros H; try discriminate H; reflexivity.
Qed.

(** X18: a request is answered with status 400 exactly when one of
    [tierId], [price], [currency], [name] and [email] is missing, null,
    false, 0 or the empty string; so a price of 0 is rejected as
    missing. *)
Theorem rejected_iff_falsy (toLowerCase : string -> string)
  (stripe : Stripe) (body : Body) :
  (exists message,
     fst (POST toLowerCase stripe (Some body)) = json_error message 400)
  <-> falsy (tierId body) \/ falsy (price body) \/ falsy (currency body)
      \/ falsy (name body) \/ falsy (email body).
Proof.
rewrite <- all_truthy_false_iff. split.
- intros [message H]. destruct (all_truthy body) eqn:Hall; [| reflexivity].
  exfalso. rewrite (POST_passes _ _ _ Hall) in H. cbv zeta in H.
  destruct (customer_id stripe); [| discriminate H].
  destruct (currency body) as [[| | | c |] |]; try discriminate H.
  destruct (session_id stripe); discriminate H.
- intros H. rewrite (POST_rejects _ _ _ H). eexists. reflexivity.
Qed.

Lemma rejected_iff_falsy_witness :
  exists message,
    fst (POST lower_letters provider (Some free_tier)) = json_error message 400.
Proof.
apply (proj2 (rejected_iff_falsy lower_letters provider free_tier)).
right. left. unfold falsy. auto 6.
Defined.

(** X19: when a session is returned, the provider was asked for a
    customer first and then for one session for that customer, in the
    lower-cased currency: a single payment that does not recur for the
    tier [partner-lifetime], a subscription that recurs each year for
    every other tier. *)
Theorem session_after_customer (toLowerCase : string -> string)
  (stripe : Stripe) (request : option Body)
  (id : string) :
  fst (POST toLowerCase stripe request) = json_session id ->
  exists body customer code,
    request = Some body
    /\ customer_id stripe = Some customer
    /\ session_id stripe = Some id
    /\ currency body = Some (JString code)
    /\ snd (POST toLowerCase stripe request)
       = [customers_create (email body) (name body) (tierId body)
            (tierType body);
          checkout_sessions_create
            (mkSessionParams
               (if is_lifetime (tierId body) then payment else subscription)
               (toLowerCase code) (price body)
               (negb (is_lifetime (tierId body))) customer)].
Proof.
destruct request as [body |]; [| discriminate].
destruct (all_truthy body) eqn:Hall.
2:{ rewrite (POST_rejects _ _ _ Hall). discriminate. }
rewrite (POST_passes _ _ _ Hall). cbv zeta.
destruct (customer_id stripe) as [customer |]; [| discriminate].
destruct (currency body) as [[| | | code |] |] eqn:Hcur; try discriminate.
destruct (session_id stripe) as [id' |]; [| discriminate].
cbn [fst snd]. intros H. injection H as <-.
exists body, customer, code. repeat split; try reflexivity. exact Hcur.
Qed.

Lemma session_after_customer_witness :
  exists body customer code,
    Some lifetime_tier = Some body
    /\ customer_id provider = Some customer
    /\ session_id provider = Some "cs_1"
    /\ currency body = Some (JString code)
    /\ snd (POST lower_letters provider (Some lifetime_tier))
       = [customers_create (email body) (name body) (tierId body)
            (tierType body);
          checkout_sessions_create
            (mkSessionParams
               (if is_lifetime (tierId body) then payment else subscription)
               (lower_letters code) (price body)
               (negb (is_lifetime (tierId body))) customer)].
Proof.
apply (session_after_customer lower_letters provider (Some lifetime_tier)
         "cs_1").
assert (all_truthy lifetime_tier = true) as Hall.
{ unfold all_truthy, lifetime_tier.
  cbn [truthy tierId price currency name email].
  destruct (Req_dec_T 4900 0); [lra | reflexivity]. }
rewrite (POST_passes _ _ _ Hall). reflexivity.
Defined.

(** X20: a failure after the guard leaves a customer behind: when the
    fields pass the guard and the provider creates the customer, but
    the currency is not a string or the session cannot be created, the
    answer is the status 500 with its fixed message although the
    customer was created; with a currency that is not a string no
    session is asked for at all. *)
Theorem failure_leaves_customer (toLowerCase : string -> string)
  (stripe : Stripe) (body : Body)
  (customer : string) :
  all_truthy body = true -> customer_id stripe = Some customer ->
  is_string (currency body) = false \/ session_id stripe = None ->
  fst (POST toLowerCase stripe (Some body))
  = json_error "Failed to create subscription" 500
  /\ hd_error (snd (POST toLowerCase stripe (Some body)))
     = Some (customers_create (email body) (name body) (tierId body)
               (tierType body))
  /\ (is_string (currency body) = false ->
      existsb creates_session (snd (POST toLowerCase stripe (Some body)))
      = false).
Proof.
intros Hall Hc H. rewrite (POST_passes _ _ _ Hall). cbv zeta. rewrite Hc.
destruct (currency body) as [[| | | code |] |]; cbn [is_string] in *;
  try (repeat split; reflexivity).
destruct H as [H | H]; [discriminate H |]. rewrite H.
repeat split; try reflexivity. discriminate.
Qed.

Lemma failure_leaves_customer_witness :
  fst (POST lower_letters provider (Some currency_as_number))
  = json_error "Failed to create subscription" 500
  /\ hd_error (snd (POST lower_letters provider (Some currency_as_number)))
     = Some (customers_create (email currency_as_number)
               (name currency_as_number) (tierId currency_as_number)
               (tierType currency_as_number))
  /\ (is_string (currency currency_as_number) = false ->
      existsb creates_session
        (snd (POST lower_letters provider (Some currency_as_number)))
      = false).
Proof.
apply (failure_leaves_customer lower_letters provider currency_as_number
         "cus_1").
- unfold all_truthy, currency_as_number. cbn [truthy tierId price currency name email].
  destruct (Req_dec_T 4900 0); [lra |]. destruct (Req_dec_T 978 0); [lra |].
  reflexivity.
- reflexivity.
- left. reflexivity.
Defined.

(** X21: whatever the request and the provider, the answer is the
    status 400 with no call made, the status 500 with its one fixed
    message, or a session; and the provider is asked for at most one
    customer and then at most one session, the session always for the
    customer just created. *)
Theorem route_outcomes (toLowerCase : string -> string)
  (stripe : Stripe) (request : option Body) :
  (POST toLowerCase stripe request
   = (json_error "Missing required parameters" 400, [])
   \/ fst (POST toLowerCase stripe request)
      = json_error "Failed to create subscription" 500
   \/ exists id, fst (POST toLowerCase stripe request) = json_session id)
  /\ (snd (POST toLowerCase stripe request) = []
      \/ (exists first,
            snd (POST toLowerCase stripe request) = [first]
            /\ creates_session first = false)
      \/ (exists first params,
            snd (POST toLowerCase stripe request)
            = [first; checkout_sessions_create params]
            /\ creates_session first = false
            /\ customer_id stripe = Some (customer params))).
Proof.
destruct request as [body |].
2:{ split; [right; left; reflexivity | left; reflexivity]. }
destruct (all_truthy body) eqn:Hall.
{ rewrite (POST_passes _ _ _ Hall). cbv zeta.
  destruct (customer_id stripe) as [customer |].
  2:{ split; [right; left; reflexivity |]. right. left.
      eexists. split; reflexivity. }
  destruct (currency body) as [[| | | code |] |];
    try (split; [right; left; reflexivity |]; right; left;
         eexists; split; reflexivity).
  destruct (session_id stripe) as [id |]; cbn [fst snd].
  - split; [right; right; eexists; reflexivity |]. right. right.
    do 2 eexists. repeat split; reflexivity.
  - split; [right; left; reflexivity |]. right. right.
    do 2 eexists. repeat split; reflexivity. }
rewrite (POST_rejects _ _ _ Hall). split; left; reflexivity.
Qed.

End RouteFacts.

(** ** The error boundary *)

Section BoundaryFacts.

Import NotFoundErrorBoundary.

Lemma caught_last (st : State) (errors : list string) (e : string) :
  caught st (errors ++ [e]) = getDerivedStateFromError e.
Proof.
unfold caught. rewrite fold_left_app. reflexivity.
Qed.

(** X22: the boundary shows its children until the first error and the
    page-not-found view ever after: once an error was caught no later
    error brings the children back, and the error kept is the last one
    caught. *)
Theorem boundary_latches (st : State) (errors : list string) :
  (render (caught initial errors) = Children <-> errors = [])
  /\ (hasError st = true -> render (caught st errors) = PageNotFound)
  /\ (forall e, error (caught st (errors ++ [e])) = Some e).
Proof.
split; [| split].
- destruct errors as [| e errors] using rev_ind.
  + split; reflexivity.
  + rewrite caught_last. split; [discriminate |].
    intros H. destruct errors; discriminate H.
- intros H. destruct errors as [| e errors] using rev_ind.
  + unfold caught, render. cbn. rewrite H. reflexivity.
  + rewrite caught_last. reflexivity.
- intros e. rewrite caught_last. reflexivity.
Qed.

End BoundaryFacts.

(** ** Steps: no jumps, and where the checkout opens *)

Section StepFacts.

Import Scenario Sample.

Lemma booking_handle_step (st : BookingSummary.State)
  (ev : BookingSummary.Event) :
  let st' := fst (BookingSummary.handle st ev) in
  BookingSummary.currentStep st' = BookingSummary.currentStep st
  \/ BookingSummary.currentStep st' = (BookingSummary.currentStep st + 1)%Z
  \/ BookingSummary.currentStep st' = (BookingSummary.currentStep st - 1)%Z.
Proof.
cbv zeta. destruct ev; cbn [BookingSummary.handle];
  unfold BookingSummary.nextStep, BookingSummary.prevStep;
  repeat match goal with
  | |- context [if ?b then _ else _] => destruct b
  end; cbn; auto.
Qed.

Lemma view_handle_step (st : BookingSummary.State)
  (ev : BookingView.UiEvent) :
  let st' := fst (BookingView.ui_handle st ev) in
  BookingSummary.currentStep st' = BookingSummary.currentStep st
  \/ BookingSummary.currentStep st' = (BookingSummary.currentStep st + 1)%Z
  \/ BookingSummary.currentStep st' = (BookingSummary.currentStep st - 1)%Z.
Proof.
cbv zeta. destruct ev; cbn [BookingView.ui_handle];
  unfold BookingSummary.nextStep, BookingSummary.prevStep;
  repeat match goal with
  | |- context [match nth_error ?l ?i with _ => _ end] =>
      destruct (nth_error l i)
  | |- context [if ?b then _ else _] => destruct b
  end; cbn; auto.
Qed.

Lemma checkout_handle_step (p : CheckoutForm.Props) (st : CheckoutForm.State)
  (ev : CheckoutForm.Event) :
  let st' := fst (CheckoutForm.handle p st ev) in
  CheckoutForm.currentStep st' = CheckoutForm.currentStep st
  \/ CheckoutForm.currentStep st' = (CheckoutForm.currentStep st + 1)%Z
  \/ CheckoutForm.currentStep st' = (CheckoutForm.currentStep st - 1)%Z.
Proof.
cbv zeta.
destruct (handlePayment_keeps p st) as (Hpay & _).
destruct ev; cbn [CheckoutForm.handle];
  unfold CheckoutForm.nextStep, CheckoutForm.prevStep;
  try (destruct (handlePayment_resume_keeps p st r) as [-> _]; auto);
  repeat match goal with
  | |- context [if CheckoutForm.success ?s then _ else _] =>
      destruct (CheckoutForm.success s)
  | |- context [if CheckoutForm.next_disabled ?s then _ else _] =>
      destruct (CheckoutForm.next_disabled s)
  | |- context [(?a <? ?b)%Z] => destruct (a <? b)%Z
  | |- context [(?a =? ?b)%Z] => destruct (a =? b)%Z
  | |- context [(?a >? ?b)%Z] => destruct (a >? b)%Z
  end; cbn [fst CheckoutForm.currentStep CheckoutForm.setCurrentStep
            CheckoutForm.handleInputChange CheckoutForm.setFormData];
  auto.
Qed.

(** X23: no event makes a wizard jump: in the booking summary, handlers
    and rendered form alike, and in the checkout form, the current step
    after an event is the step before, one more or one less. *)
Theorem no_step_is_skipped :
  (forall st ev,
     let st' := fst (BookingSummary.handle st ev) in
     BookingSummary.currentStep st' = BookingSummary.currentStep st
     \/ BookingSummary.currentStep st' = (BookingSummary.currentStep st + 1)%Z
     \/ BookingSummary.currentStep st' = (BookingSummary.currentStep st - 1)%Z)
  /\ (forall st ev,
        let st' := fst (BookingView.ui_handle st ev) in
        BookingSummary.currentStep st' = BookingSummary.currentStep st
        \/ BookingSummary.currentStep st'
           = (BookingSummary.currentStep st + 1)%Z
        \/ BookingSummary.currentStep st'
           = (BookingSummary.currentStep st - 1)%Z)
  /\ (forall p st ev,
        let st' := fst (CheckoutForm.handle p st ev) in
        CheckoutForm.currentStep st' = CheckoutForm.currentStep st
        \/ CheckoutForm.currentStep st' = (CheckoutForm.currentStep st + 1)%Z
        \/ CheckoutForm.currentStep st' = (CheckoutForm.currentStep st - 1)%Z).
Proof.
split; [exact booking_handle_step |].
split; [exact view_handle_step | exact checkout_handle_step].
Qed.

(** X24: on the rendered wizard the checkout form opens from the last
    step only, by the request-quote button, with the form of that step
    valid. *)
Theorem checkout_opens_on_last_step (p : BookingSummary.Props)
  (st : BookingSummary.State) (ev : BookingView.UiEvent) :
  BookingView.ui_reachable p st ->
  BookingSummary.showCheckout st = false ->
  BookingSummary.showCheckout (fst (BookingView.ui_handle st ev)) = true ->
  ev = BookingView.ClickRequestQuote
  /\ BookingSummary.currentStep st = BookingSummary.totalSteps st
  /\ BookingSummary.totalSteps st
     = match BookingSummary.stops p with [] => 3%Z | _ :: _ => 4%Z end
  /\ BookingSummary.isFormValid st = true.
Proof.
intros Hreach Hclosed Hopen.
destruct (ui_invariant p st Hreach) as (Hrange & Htotal & _).
assert (BookingSummary.totalSteps st
        = match BookingSummary.stops p with [] => 3%Z | _ :: _ => 4%Z end)
  as Hsteps.
{ rewrite Htotal. unfold BookingSummary.booking_steps.
  destruct (BookingSummary.stops p); reflexivity. }
destruct ev; cbn [BookingView.ui_handle] in Hopen; rewrite ?Hclosed in Hopen;
  unfold BookingSummary.nextStep, BookingSummary.prevStep,
    BookingSummary.handleRequestQuote, BookingSummary.handleServiceToggle,
    BookingSummary.handleContactInfoChange in Hopen.
4:{ destruct (Z.ltb_spec (BookingSummary.currentStep st)
                (BookingSummary.totalSteps st)) as [Hlt | Hge];
      destruct (BookingSummary.isFormValid st) eqn:Hvalid;
      cbn in Hopen; try congruence.
    repeat split; try assumption. lia. }
all: repeat match type of Hopen with
     | context [match nth_error ?l ?i with _ => _ end] =>
         destruct (nth_error l i)
     | context [if ?b then _ else _] => destruct b
     end; cbn in Hopen; congruence.
Qed.

Lemma checkout_opens_on_last_step_witness :
  let st :=
    ui_run (BookingSummary.mount flight_1000)
      (removelast book_direct_flight) in
  BookingView.ClickRequestQuote = BookingView.ClickRequestQuote
  /\ BookingSummary.currentStep st = BookingSummary.totalSteps st
  /\ BookingSummary.totalSteps st
     = match BookingSummary.stops flight_1000 with
       | [] => 3%Z
       | _ :: _ => 4%Z
       end
  /\ BookingSummary.isFormValid st = true.
Proof.
apply (checkout_opens_on_last_step flight_1000
         (ui_run (BookingSummary.mount flight_1000)
            (removelast book_direct_flight))
         BookingView.ClickRequestQuote).
- apply view_reachable_run, BookingView.ui_mount.
- reflexivity.
- reflexivity.
Defined.

End StepFacts.
